(** * field-app: offline synchronisation and caching engine

    A shallow embedding of the parts of [static/js/offline.js],
    [static/js/visit.js] and [static/sw.js] that implement the durable
    sync queue, its reconciler, the service-worker fetch policy and the
    tile prefetcher, together with the properties stated about them.

    Layout: part I holds the definitions (the embedding, then the sample
    data used by the closed examples); part II holds the lemmas and
    theorems about the sync queue, the reconciler, the fetch policy and
    the tile list; part III holds further properties of the same code and
    of the functions around it (activation, installation, the prefetch
    loop, the keyed stores, loading a project, notes and pins). *)

From Stdlib Require Import ZArith String Ascii List.
From Stdlib Require Import PrimFloat FloatOps SpecFloat Uint63.
From stdpp Require Import base gmap strings list sorting pretty.

Set Warnings "-register-all,-inexact-float".

Local Open Scope string_scope.
Local Open Scope list_scope.

(* ===================================================================== *)
(** * Part I: definitions *)
(* ===================================================================== *)

(** ** JavaScript values

    Numbers are IEEE binary64 ([PrimFloat.float]); objects are finite maps
    from property names to values.  A request body written
    [JSON.stringify(v)] in the source is carried as the value [v]. *)

Inductive jsval :=
| JUndefined
| JNull
| JBool (b : bool)
| JNum (x : float)
| JStr (s : string)
| JArr (l : list jsval)
| JObj (o : gmap string jsval).

Abbreviation jsobj := (gmap string jsval).

(** [ToBoolean]: the values the [||] operator treats as false. *)
Definition js_truthy (v : jsval) : bool :=
  match v with
  | JUndefined | JNull => false
  | JBool b => b
  | JNum x => negb (PrimFloat.is_nan x || PrimFloat.is_zero x)
  | JStr s => negb (String.eqb s EmptyString)
  | JArr _ | JObj _ => true
  end.

(** [a || b] *)
Definition js_or (a b : jsval) : jsval := if js_truthy a then a else b.

(** [v !== null && v !== undefined] *)
Definition js_present (v : jsval) : bool :=
  match v with
  | JUndefined | JNull => false
  | _ => true
  end.

(** ** Numbers

    The arithmetic of the source is that of binary64; [+], [-], [*], [/]
    and the comparisons are the primitive operations of [PrimFloat].  The
    functions of [Math] that have an exact result are defined here; the
    transcendental ones are parameters where they are used. *)

Module JSNumber.

(** The integer part, rounded toward minus infinity, of a finite number. *)
Definition floor_Z (x : float) : option Z :=
  match Prim2SF x with
  | S754_zero _ => Some 0%Z
  | S754_finite s m e =>
      let n := if s then Z.neg m else Z.pos m in
      Some (if (0 <=? e)%Z then n * 2 ^ e else n / 2 ^ (- e))%Z
  | S754_infinity _ | S754_nan => None
  end.

(** The number with a given integer value (exact up to 2^53). *)
Definition of_Z (z : Z) : float :=
  if (0 <=? z)%Z then PrimFloat.of_uint63 (Uint63.of_Z z)
  else (- PrimFloat.of_uint63 (Uint63.of_Z (- z)))%float.

Definition of_N (n : N) : float := of_Z (Z.of_N n).

(** Is the number finite with no fractional part. *)
Definition is_integer (x : float) : bool :=
  match Prim2SF x with
  | S754_zero _ => true
  | S754_finite _ m e => (0 <=? e)%Z || (Z.pos m mod 2 ^ (- e) =? 0)%Z
  | S754_infinity _ | S754_nan => false
  end.

(** [Math.floor(x)]: a number from 2^52 on is an integer already; zeros,
    infinities and NaN are returned as they are. *)
Definition Math_floor (x : float) : float :=
  match Prim2SF x with
  | S754_finite _ _ e =>
      if (0 <=? e)%Z then x
      else match floor_Z x with
           | Some z => of_Z z
           | None => x
           end
  | S754_zero _ | S754_infinity _ | S754_nan => x
  end.

(** [Math.PI] *)
Definition Math_PI : float := 3.141592653589793%float.

(** [Math.pow(2, e)]: the exact power of two when [e] is an integer (it
    overflows to [Infinity] and underflows to [0] as binary64 does);
    any other exponent is left to the platform's [Math.pow]. *)
Definition Math_pow2 (Math_pow : float -> float -> float) (e : float) : float :=
  if is_integer e
  then match floor_Z e with
       | Some n => Z.ldexp 1 n
       | None => Math_pow 2%float e
       end
  else Math_pow 2%float e.

(** The values [i], [i + 1], [i + 1 + 1], ... a counter takes under [i++]. *)
Fixpoint counter (k : nat) (i : float) : float :=
  match k with
  | O => i
  | S k' => counter k' (i + 1)%float
  end.

(** [for (let i = lo; i <= hi; i++) body(i)], collecting what the bodies
    push.  A loop of the source need not end (from 2^53 on [i++] leaves
    [i] as it is); [fuel] bounds the number of tests of the condition and
    [None] says that it was used up, or that a body did not return. *)
Fixpoint for_upto {A} (fuel : nat) (i hi : float)
    (body : float -> option (list A)) : option (list A) :=
  match fuel with
  | O => None
  | S fuel' =>
      if (i <=? hi)%float
      then match body i with
           | Some out =>
               match for_upto fuel' (i + 1)%float hi body with
               | Some rest => Some (out ++ rest)
               | None => None
               end
           | None => None
           end
      else Some []
  end.

(** What the loop does when it ends, as a relation: the test fails, or it
    holds, the body returns and the loop continues from [i + 1]. *)
Inductive loops {A} (hi : float) (body : float -> option (list A))
    : float -> list A -> Prop :=
| loops_exit i :
    (i <=? hi)%float = false -> loops hi body i []
| loops_step i out rest :
    (i <=? hi)%float = true -> body i = Some out ->
    loops hi body (i + 1)%float rest ->
    loops hi body i (out ++ rest).


End JSNumber.

(** Outcome of awaiting a promise. *)
Inductive Settled (A : Type) :=
| Fulfilled (a : A)
| Rejected.
Arguments Fulfilled {A} a.
Arguments Rejected {A}.

(** ** HTTP responses (shared by the page and the service worker) *)

Inductive Body :=
| BodyText (s : string)
| BodyJSON (v : jsval).

Record Response := mkResponse {
  status : Z;
  resp_headers : list (string * string);
  resp_body : Body
}.

(** [response.ok]: the status is in the range 200-299. *)
Definition ok (r : Response) : bool :=
  (200 <=? status r)%Z && (status r <=? 299)%Z.

(** [new Response(body, init)]: the status defaults to 200. *)
Definition new_Response (body : Body) (st : option Z)
    (hs : list (string * string)) : Response :=
  {| status := default 200%Z st; resp_headers := hs; resp_body := body |}.

(* ===================================================================== *)
(** ** offline.js: the IndexedDB sync queue and the reconciler *)
(* ===================================================================== *)

Module Offline.

(** A record of the [sync_queue] object store
    ([keyPath: 'id', autoIncrement: true]). *)
Record SyncItem := mkSyncItem {
  sq_id : N;
  sq_action : string;
  sq_endpoint : string;
  sq_data : jsval;
  sq_timestamp : float;
  sq_attempts : N
}.

(** IndexedDB transactions are taken to complete; a request fails only
    where its key is refused (see [add_by_key_path]). *)

(** An auto-increment object store: the key generator and the records.
    IndexedDB keeps records in ascending key order and [getAll] returns
    them in that order; here the list is kept in that order (see
    [wf_queue], which [store_add] and [store_delete] preserve). *)
Record ObjectStore (A : Type) := mkStore {
  keygen : N;
  rows : list A
}.
Arguments mkStore {A} keygen rows.
Arguments keygen {A} o.
Arguments rows {A} o.

(** [indexedDB.open] creates the stores empty; key generators start at 1. *)
Definition empty_store {A} : ObjectStore A := mkStore 1%N [].

(** [store.add(v)] on an auto-increment store: the generator's current
    value becomes the key, the record goes after all smaller keys. *)
Definition store_add {A} (mk : N -> A) (s : ObjectStore A) : ObjectStore A :=
  mkStore (keygen s + 1)%N (rows s ++ [mk (keygen s)]).

(** [store.delete(key)] *)
Definition store_delete {A} (key_of : A -> N) (k : N) (s : ObjectStore A)
    : ObjectStore A :=
  mkStore (keygen s) (filter (fun r => key_of r <> k) (rows s)).

(** *** The [gps_points] store ([keyPath: 'localId', autoIncrement: true])

    A record of this store brings its key in its [localId] property or,
    when it has none, gets the generator's current number, which is then
    written into the stored copy. *)
Inductive IDBKey :=
| KGen (n : N)                         (* drawn from the key generator *)
| KOwn (v : jsval).                    (* the record's own [localId] *)

(** The valid keys among the values: a number other than NaN, a string, an
    array of valid keys. *)
Fixpoint valid_key (v : jsval) : bool :=
  match v with
  | JNum x => negb (PrimFloat.is_nan x)
  | JStr _ => true
  | JArr l => forallb valid_key l
  | JUndefined | JNull | JBool _ | JObj _ => false
  end.

(** The order of keys: numbers by value, then strings, then arrays item
    by item. *)
Fixpoint key_compare (a b : jsval) : comparison :=
  match a, b with
  | JNum x, JNum y =>
      if (x <? y)%float then Lt else if (y <? x)%float then Gt else Eq
  | JNum _, _ => Lt
  | _, JNum _ => Gt
  | JStr s, JStr t => String.compare s t
  | JStr _, _ => Lt
  | _, JStr _ => Gt
  | JArr l, JArr m =>
      (fix items (l m : list jsval) : comparison :=
         match l, m with
         | [], [] => Eq
         | [], _ :: _ => Lt
         | _ :: _, [] => Gt
         | x :: l', y :: m' =>
             match key_compare x y with
             | Eq => items l' m'
             | c => c
             end
         end) l m
  | _, _ => Eq                          (* not reached on valid keys *)
  end.

Definition key_value (k : IDBKey) : jsval :=
  match k with
  | KGen n => JNum (JSNumber.of_N n)
  | KOwn v => v
  end.

Definition idb_compare (a b : IDBKey) : comparison :=
  match a, b with
  | KGen m, KGen n => (m ?= n)%N
  | _, _ => key_compare (key_value a) (key_value b)
  end.

(** A record is placed before the first record with a greater key. *)
Fixpoint idb_insert (k : IDBKey) (v : jsobj) (l : list (IDBKey * jsobj))
    : list (IDBKey * jsobj) :=
  match l with
  | [] => [(k, v)]
  | r :: rest =>
      match idb_compare k r.1 with
      | Lt => (k, v) :: r :: rest
      | Eq | Gt => r :: idb_insert k v rest
      end
  end.

(** A key that is a number pushes the generator past it (2^53 at most). *)
Definition bump_generator (v : jsval) (g : N) : N :=
  match v with
  | JNum x =>
      let value :=
        match JSNumber.floor_Z x with
        | Some z => Some (Z.min z (2 ^ 53))
        | None => if (0 <? x)%float then Some (2 ^ 53)%Z else None
        end in
      match value with
      | Some z => if (Z.of_N g <=? z)%Z then Z.to_N (z + 1) else g
      | None => g
      end
  | _ => g
  end.

(** [store.add(data)] on this store.  Without a [localId] the key comes
    from the generator (taken not to run out).  With one, the request
    fails when the value is no valid key (DataError) or the key is in the
    store already (ConstraintError). *)
Definition add_by_key_path (data : jsobj) (s : ObjectStore (IDBKey * jsobj))
    : Settled (ObjectStore (IDBKey * jsobj)) :=
  match data !! "localId" with
  | None | Some JUndefined =>
      Fulfilled
        (mkStore (keygen s + 1)%N
           (idb_insert (KGen (keygen s))
              (<["localId" := JNum (JSNumber.of_N (keygen s))]> data) (rows s)))
  | Some v =>
      if valid_key v
      then if existsb (fun r => match idb_compare (KOwn v) r.1 with
                                | Eq => true
                                | _ => false
                                end) (rows s)
           then Rejected
           else Fulfilled (mkStore (bump_generator v (keygen s))
                             (idb_insert (KOwn v) data (rows s)))
      else Rejected
  end.

(** Every key of the store came from its generator. *)
Definition wf_points (s : ObjectStore (IDBKey * jsobj)) : Prop :=
  Forall (fun r => exists n, r.1 = KGen n /\ (n < keygen s)%N) (rows s).

(** The page's database [db]: the two stores the sync engine uses. *)
Record DB := mkDB {
  gps_points : ObjectStore (IDBKey * jsobj);
  sync_queue : ObjectStore SyncItem
}.

Definition initOfflineDB : DB := mkDB empty_store empty_store.

(** [saveGPSPointLocal(projectId, point)]; [now] is [Date.now()].
    Returns the [data] object the promise resolves with and how the
    request settles: the new database, or a rejection. *)
Definition saveGPSPointLocal (projectId : jsval) (point : jsobj) (now : float)
    (db : DB) : jsobj * Settled DB :=
  let data : jsobj :=
    <["timestamp" := JNum now]>
      (<["synced" := JBool false]>
         (<["project_id" := projectId]> point)) in
  (data,
   match add_by_key_path data (gps_points db) with
   | Fulfilled s => Fulfilled (mkDB s (sync_queue db))
   | Rejected => Rejected
   end).

(** [addToSyncQueue(action, endpoint, data)]; [now] is [Date.now()]. *)
Definition addToSyncQueue (action endpoint : string) (data : jsval)
    (now : float) (db : DB) : DB :=
  mkDB (gps_points db)
       (store_add (fun k => {| sq_id := k; sq_action := action;
                               sq_endpoint := endpoint; sq_data := data;
                               sq_timestamp := now; sq_attempts := 0 |})
                  (sync_queue db)).

(** [getPendingSyncs()]: [store.getAll()] *)
Definition getPendingSyncs (db : DB) : list SyncItem := rows (sync_queue db).

(** [removeFromSyncQueue(id)] *)
Definition removeFromSyncQueue (id : N) (db : DB) : DB :=
  mkDB (gps_points db) (store_delete sq_id id (sync_queue db)).

(** [getUnsyncedCount()] *)
Definition getUnsyncedCount (db : DB) : nat := length (getPendingSyncs db).

(** The arguments of a [fetch(resource, init)] call made by the page. *)
Record FetchCall := mkFetchCall {
  fc_resource : string;
  fc_method : string;
  fc_headers : list (string * string);
  fc_body : jsval                       (* the value given to JSON.stringify *)
}.

(** The [fetch] call [syncPendingData] makes for a queue item. *)
Definition sync_request (item : SyncItem) : FetchCall :=
  {| fc_resource := sq_endpoint item;
     fc_method := sq_action item;
     fc_headers := [("Content-Type", "application/json")];
     fc_body := sq_data item |}.

(** The keys of the queue are strictly increasing and below the generator. *)
Definition wf_queue (s : ObjectStore SyncItem) : Prop :=
  StronglySorted N.lt (sq_id <$> rows s) /\
  Forall (fun k => (k < keygen s)%N) (sq_id <$> rows s).

Section Drain.
(** The transport: a state [Net] (server and link) and the effect of
    one [fetch] on it. *)
Context {Net : Type}.
Variable fetch : FetchCall -> Net -> Settled Response * Net.

(** The state threaded through the loop of [syncPendingData]: its two
    counters, the database, the transport, and the record of the
    attempts made so far (item, outcome), oldest first. *)
Record DrainState := mkDrain {
  synced : N;
  failed : N;
  ds_db : DB;
  ds_net : Net;
  ds_trace : list (SyncItem * Settled Response)
}.

(** Did the server acknowledge: the promise fulfilled with an ok response. *)
Definition acked (o : Settled Response) : bool :=
  match o with
  | Fulfilled r => ok r
  | Rejected => false
  end.

(** One iteration of [for (const item of pending)]. *)
Definition sync_item (item : SyncItem) (st : DrainState) : DrainState :=
  let '(o, net') := fetch (sync_request item) (ds_net st) in
  let tr := ds_trace st ++ [(item, o)] in
  match o with
  | Fulfilled response =>
      if ok response
      then mkDrain (synced st + 1) (failed st)
                   (removeFromSyncQueue (sq_id item) (ds_db st)) net' tr
      else mkDrain (synced st) (failed st + 1) (ds_db st) net' tr
  | Rejected =>
      mkDrain (synced st) (failed st + 1) (ds_db st) net' tr
  end.

Fixpoint sync_items (pending : list SyncItem) (st : DrainState) : DrainState :=
  match pending with
  | [] => st
  | item :: rest => sync_items rest (sync_item item st)
  end.

(** [syncPendingData()]; [online] is [navigator.onLine]. *)
Definition syncPendingData (online : bool) (db : DB) (net : Net) : DrainState :=
  if negb online then mkDrain 0 0 db net []
  else sync_items (getPendingSyncs db) (mkDrain 0 0 db net []).

(** The yardstick for "one [fetch] per record, in order": the request of
    each record is given to the transport in turn, each call on the
    transport as the calls before it left it; the result is every record
    with the outcome of its call, and the transport after the last. *)
Fixpoint attempts (pending : list SyncItem) (net : Net)
    : list (SyncItem * Settled Response) * Net :=
  match pending with
  | [] => ([], net)
  | item :: rest =>
      let '(o, net1) := fetch (sync_request item) net in
      let '(tr, net2) := attempts rest net1 in
      ((item, o) :: tr, net2)
  end.
End Drain.

Arguments DrainState Net : clear implicits.

(** A transport that keeps the list of the calls it receives; how a call
    settles may depend on the call and on the number of calls before it. *)
Definition recording (answer : FetchCall -> nat -> Settled Response)
    (c : FetchCall) (calls : list FetchCall)
    : Settled Response * list FetchCall :=
  (answer c (length calls), calls ++ [c]).

(** The reading of the attempt counter under which a failed attempt leaves
    the queue holding the same key with [attempts] one higher. *)
Definition attempts_incremented_on_failure {Net}
    (fetch : FetchCall -> Net -> Settled Response * Net)
    (db : DB) (net : Net) : Prop :=
  let r := syncPendingData fetch true db net in
  forall item o, (item, o) ∈ (attempts fetch (getPendingSyncs db) net).1 ->
    acked o = false ->
    exists item', item' ∈ getPendingSyncs (ds_db r) /\
      sq_id item' = sq_id item /\
      sq_attempts item' = (sq_attempts item + 1)%N.

End Offline.

(* ===================================================================== *)
(** ** Overlapping runs of [syncPendingData]

    [syncPendingData] is an async function: it gives up control at each
    [await] ([getPendingSyncs], [fetch], [removeFromSyncQueue]) and other
    runs started meanwhile (the two [online] listeners, the [do-sync]
    message) proceed in between.  A run is modelled by where it is
    suspended; a step of the system resumes one run up to its next
    [await]. *)
(* ===================================================================== *)

Module Overlap.
Import Offline.

Inductive Task :=
| TStart                                  (* called; the queue not yet read *)
| TLoop (pending : list SyncItem) (synced failed : N)   (* at the loop head *)
| TAwaitFetch (item : SyncItem) (rest : list SyncItem) (synced failed : N)
| TAwaitDelete (item : SyncItem) (rest : list SyncItem) (synced failed : N)
| TDone (synced failed : N).              (* returned { synced, failed } *)

(** The shared database, the submissions made so far (which run, which
    record), oldest first, and the runs. *)
Record Sys := mkSys {
  sys_db : DB;
  sys_log : list (nat * SyncItem);
  sys_tasks : list Task
}.

(** One resumption of run [i]. *)
Inductive task_step (i : nat) :
    DB -> list (nat * SyncItem) -> Task ->
    DB -> list (nat * SyncItem) -> Task -> Prop :=
| step_offline db log :                   (* !isOnline() *)
    task_step i db log TStart db log (TDone 0 0)
| step_read db log :                      (* pending = await getPendingSyncs() *)
    task_step i db log TStart db log (TLoop (getPendingSyncs db) 0 0)
| step_fetch db log item rest s f :       (* fetch(item.endpoint, ...) is sent *)
    task_step i db log (TLoop (item :: rest) s f)
              db (log ++ [(i, item)]) (TAwaitFetch item rest s f)
| step_exit db log s f :
    task_step i db log (TLoop [] s f) db log (TDone s f)
| step_acked db log item rest s f o :     (* response.ok: the delete is issued *)
    acked o = true ->
    task_step i db log (TAwaitFetch item rest s f)
              db log (TAwaitDelete item rest s f)
| step_failed db log item rest s f o :    (* not ok, or the fetch threw *)
    acked o = false ->
    task_step i db log (TAwaitFetch item rest s f)
              db log (TLoop rest s (f + 1))
| step_deleted db log item rest s f :     (* removeFromSyncQueue resolved *)
    task_step i db log (TAwaitDelete item rest s f)
              (removeFromSyncQueue (sq_id item) db) log (TLoop rest (s + 1) f).

Inductive sys_step : Sys -> Sys -> Prop :=
| sys_step_task i t t' db log tasks db' log' :
    tasks !! i = Some t ->
    task_step i db log t db' log' t' ->
    sys_step (mkSys db log tasks) (mkSys db' log' (<[i := t']> tasks)).

(** [n] runs launched together over the queue of [db]. *)
Definition launch (n : nat) (db : DB) : Sys := mkSys db [] (replicate n TStart).

(** How often the record with key [k] was submitted to the network. *)
Definition submissions (k : N) (log : list (nat * SyncItem)) : nat :=
  length (filter (fun p => sq_id p.2 = k) log).

(** The same, counting only the submissions of run [i]. *)
Definition submissions_by (i : nat) (k : N) (log : list (nat * SyncItem)) : nat :=
  length (filter (fun p => sq_id p.2 = k) (filter (fun p => p.1 = i) log)).

(** The records run [i] has submitted so far. *)
Definition sent_by (i : nat) (log : list (nat * SyncItem)) : list SyncItem :=
  (filter (fun p => p.1 = i) log).*2.

(** What a suspended run still has before it. *)
Definition task_inv (rows0 sent : list SyncItem) (t : Task) : Prop :=
  match t with
  | TStart => sent = []
  | TLoop rest _ _ | TAwaitFetch _ rest _ _ | TAwaitDelete _ rest _ _ =>
      sublist (sent ++ rest) rows0
  | TDone _ _ => sublist sent rows0
  end.

(** The invariant of the system started on a queue holding [rows0]: the
    queue only shrinks, each run works through a snapshot of it, and the
    log names only runs that exist. *)
Record sys_inv (rows0 : list SyncItem) (n : nat) (sys : Sys) : Prop := {
  inv_queue : sublist (getPendingSyncs (sys_db sys)) rows0;
  inv_tasks : forall i t, sys_tasks sys !! i = Some t ->
                task_inv rows0 (sent_by i (sys_log sys)) t;
  inv_length : length (sys_tasks sys) = n;
  inv_log : Forall (fun p => p.1 < n) (sys_log sys)
}.

(** Two runs launched together never submit a record twice. *)
Definition no_double_submission (db : DB) : Prop :=
  forall sys, rtc sys_step (launch 2 db) sys ->
    forall k, submissions k (sys_log sys) <= 1.

End Overlap.

(* ===================================================================== *)
(** ** visit.js: capturing a GPS point *)
(* ===================================================================== *)

Module Visit.
Import Offline.

(** [currentGPS], as [handleGPSSuccess] fills it from [position.coords];
    the two altitude readings may be [null]. *)
Record GPSReading := mkGPS {
  g_lat : float;
  g_lon : float;
  g_accuracy : float;
  g_altitude : option float;
  g_altitudeAccuracy : option float;
  g_timestamp : string
}.

(** The page: the globals of visit.js that [saveGPSPoint] touches, the
    database of offline.js, and the [fetch] calls the page has made.
    [projectData] is [null] until [loadProject] has set it, and
    [undefined] after a load that found nothing: [gps_points_mem] is then
    [None].  Otherwise it is [Some l] with [l] the list in
    [projectData.gps_points] (the empty list when that property is
    missing: the first push creates it). *)
Record Page := mkPage {
  projectId : jsval;
  gps_points_mem : option (list jsobj);
  currentGPS : option GPSReading;
  pendingGPSLabel : jsval;
  db : DB;
  sent : list FetchCall
}.

Definition nullable (o : option float) : jsval :=
  match o with
  | Some x => JNum x
  | None => JNull
  end.

(** [currentGPS?.f] *)
Definition opt_chain (g : option GPSReading) (f : GPSReading -> jsval) : jsval :=
  match g with
  | Some r => f r
  | None => JUndefined
  end.

Section Capture.
(** [Math.round], and the rendering of a value inside a template literal. *)
Variable Math_round : float -> float.
Variable ToString : jsval -> string.

(** The object literal [point] built by [saveGPSPoint]; [iso] is
    [new Date().toISOString()]. *)
Definition make_point (label : string) (lat lon : float)
    (g : option GPSReading) (type : jsval) (iso : string) : jsobj :=
  let altitudeMeters := opt_chain g (fun r => nullable (g_altitude r)) in
  let elevationFeet :=
    if js_present altitudeMeters
    then match altitudeMeters with
         | JNum a => JNum (Math_round (a * 3.28084)%float)
         | _ => JNum PrimFloat.nan    (* not reached: a reading is a number *)
         end
    else JNull in
  {[ "label" := JStr label;
     "lat" := JNum lat;
     "lon" := JNum lon;
     "altitude_m" := altitudeMeters;
     "elevation_ft" := elevationFeet;
     "altitude_accuracy" :=
       js_or (opt_chain g (fun r => nullable (g_altitudeAccuracy r))) JNull;
     "accuracy" := js_or (opt_chain g (fun r => JNum (g_accuracy r))) JNull;
     "type" := type;
     "timestamp" := JStr iso ]}.

Definition gps_endpoint (pid : jsval) : string :=
  "/api/projects/" +:+ ToString pid +:+ "/gps".

(** [await saveGPSPointLocal(projectId, point);
     await addToSyncQueue('POST', `/api/projects/${projectId}/gps`, point)],
    as the [else] branch and the [catch] block both have it; [None] when
    the local save rejects. *)
Definition save_and_queue (point : jsobj) (nowL nowQ : float) (p : Page)
    : option Page :=
  match saveGPSPointLocal (projectId p) point nowL (db p) with
  | (_, Fulfilled db1) =>
      Some (mkPage (projectId p) (gps_points_mem p) (currentGPS p)
              (pendingGPSLabel p)
              (addToSyncQueue "POST" (gps_endpoint (projectId p))
                 (JObj point) nowQ db1)
              (sent p))
  | (_, Rejected) => None
  end.

(** [if (!projectData.gps_points) projectData.gps_points = [];
     projectData.gps_points.push(point)]: a TypeError ([None]) when
    [projectData] is [null] or [undefined]. *)
Definition push_point (point : jsobj) (p : Page) : option Page :=
  match gps_points_mem p with
  | Some l =>
      Some (mkPage (projectId p) (Some (l ++ [point])) (currentGPS p)
              (pendingGPSLabel p) (db p) (sent p))
  | None => None
  end.

(** [closeGPSModal()] resets [pendingGPSLabel]. *)
Definition closeGPSModal (p : Page) : Page :=
  mkPage (projectId p) (gps_points_mem p) (currentGPS p) JNull (db p) (sent p).

(** The rest of the [try] block once the point is sent or queued: the
    push, then the modal is closed. *)
Definition finish_capture (point : jsobj) (p : Page) : option Page :=
  closeGPSModal <$> push_point point p.

(** The [catch] block, entered in state [p]: save and queue, push, close.
    What throws here makes [saveGPSPoint] reject ([false]); the page is
    left as the statements before the throw made it. *)
Definition capture_fallback (point : jsobj) (nowL nowQ : float) (p : Page)
    : Page * bool :=
  match save_and_queue point nowL nowQ p with
  | Some p1 =>
      match finish_capture point p1 with
      | Some p2 => (p2, true)
      | None => (p1, false)
      end
  | None => (p, false)
  end.

(** [saveGPSPoint()].  [label], [lat], [lon] are what the form holds
    ([lat], [lon] after [parseFloat]); [online] is [navigator.onLine];
    [server] is how the POST of the online path settles; [now1], [now2]
    are the readings of [Date.now()] taken in the [try] block, [now3],
    [now4] those taken in the [catch] block.  The boolean tells whether
    the function ran to its end (rather than rejecting).  The list on the
    page and the toast are not modelled. *)
Definition saveGPSPoint (label : string) (lat lon : float) (iso : string)
    (online : bool) (server : Settled Response) (now1 now2 now3 now4 : float)
    (p : Page) : Page * bool :=
  if String.eqb label EmptyString || PrimFloat.is_nan lat || PrimFloat.is_nan lon
  then (p, true)
  else
    let point := make_point label lat lon (currentGPS p) (pendingGPSLabel p) iso in
    if online then
      let call := {| fc_resource := gps_endpoint (projectId p);
                     fc_method := "POST";
                     fc_headers := [("Content-Type", "application/json")];
                     fc_body := JObj point |} in
      let p1 := mkPage (projectId p) (gps_points_mem p) (currentGPS p)
                       (pendingGPSLabel p) (db p) (sent p ++ [call]) in
      match server with
      | Fulfilled _ =>
          match finish_capture point p1 with
          | Some p2 => (p2, true)
          | None => capture_fallback point now3 now4 p1
          end
      | Rejected => capture_fallback point now3 now4 p1
      end
    else
      match save_and_queue point now1 now2 p with
      | Some p1 =>
          match finish_capture point p1 with
          | Some p2 => (p2, true)
          | None => capture_fallback point now3 now4 p1
          end
      | None => capture_fallback point now3 now4 p
      end.



End Capture.

End Visit.

(* ===================================================================== *)
(** ** sw.js: the service worker's fetch policy *)
(* ===================================================================== *)

Module SW.

Definition CACHE_NAME : string := "field-app-v1".
Definition TILE_CACHE : string := "map-tiles-v1".
Definition DATA_CACHE : string := "project-data-v1".

(** The parts of [new URL(event.request.url)] the handler reads. *)
Record URL := mkURL {
  href : string;
  hostname : string;
  pathname : string
}.

(** [event.request]: its URL, its method and [headers.get('Accept')]. *)
Record Request := mkRequest {
  url : URL;
  method : string;
  accept : option string
}.

(** [s.includes(sub)] *)
Fixpoint includes (s sub : string) : bool :=
  String.prefix sub s ||
  match s with
  | EmptyString => false
  | String _ s' => includes s' sub
  end.

(** [s.startsWith(p)] *)
Definition startsWith (s p : string) : bool := String.prefix p s.

(** Header names compare without regard to case. *)
Definition lower_ascii (c : ascii) : ascii :=
  let n := nat_of_ascii c in
  if (65 <=? n)%nat && (n <=? 90)%nat then ascii_of_nat (n + 32) else c.

Fixpoint lower (s : string) : string :=
  match s with
  | EmptyString => EmptyString
  | String c s' => String (lower_ascii c) (lower s')
  end.

(** The items of a comma-separated header value. *)
Fixpoint split_commas (s : string) : list string :=
  match s with
  | EmptyString => [EmptyString]
  | String c s' =>
      if Ascii.eqb c ","
      then EmptyString :: split_commas s'
      else match split_commas s' with
           | [] => [String c EmptyString]
           | w :: ws => String c w :: ws
           end
  end.

Definition is_blank (c : ascii) : bool :=
  Ascii.eqb c " " || Ascii.eqb c "009".

Fixpoint trim_left (s : string) : string :=
  match s with
  | EmptyString => EmptyString
  | String c s' => if is_blank c then trim_left s' else s
  end.

Fixpoint reverse_onto (s acc : string) : string :=
  match s with
  | EmptyString => acc
  | String c s' => reverse_onto s' (String c acc)
  end.

Definition trim (s : string) : string :=
  reverse_onto (trim_left (reverse_onto (trim_left s) EmptyString)) EmptyString.

(** Does a [Vary] header of the response list [*]. *)
Definition vary_star (r : Response) : bool :=
  existsb (fun h : string * string =>
             String.eqb (lower h.1) "vary" &&
             existsb (fun v => String.eqb (trim v) "*") (split_commas h.2))
          (resp_headers r).

(** The responses [cache.put] accepts: it rejects (a TypeError, nothing
    is stored) a response of status 206 and one that varies on [*]. *)
Definition storable (r : Response) : bool :=
  negb (status r =? 206)%Z && negb (vary_star r).

(** A cache: responses keyed by request URL.  [caches.open] and [match]
    are taken to complete.  The Cache API stores and matches GET requests
    only: [match] on another method finds nothing, and [put] with another
    method, or with a response that is not [storable], rejects without
    storing. *)
Abbreviation Cache := (gmap string Response).

Definition cache_match (c : Cache) (req : Request) : option Response :=
  if String.eqb (method req) "GET" then c !! href (url req) else None.

(** [caches]: the named caches, in order of creation. *)
Definition CacheStorage := list (string * Cache).

Fixpoint caches_lookup (name : string) (cs : CacheStorage) : option Cache :=
  match cs with
  | [] => None
  | (n, c) :: rest => if String.eqb n name then Some c else caches_lookup name rest
  end.

(** The entries of the cache called [name] (none if it does not exist). *)
Definition cache_content (name : string) (cs : CacheStorage) : Cache :=
  default ∅ (caches_lookup name cs).

(** [caches.open(name)]: the cache is created, empty, if it is missing. *)
Definition caches_open (name : string) (cs : CacheStorage) : CacheStorage :=
  match caches_lookup name cs with
  | Some _ => cs
  | None => cs ++ [(name, ∅)]
  end.

Fixpoint caches_update (name : string) (f : Cache -> Cache) (cs : CacheStorage)
    : CacheStorage :=
  match cs with
  | [] => []
  | (n, c) :: rest =>
      if String.eqb n name then (n, f c) :: rest
      else (n, c) :: caches_update name f rest
  end.

(** [caches.open(name).then(cache => cache.put(req, resp))]; the handler
    never waits for the [put], so a rejected one goes unnoticed. *)
Definition caches_put (name : string) (req : Request) (resp : Response)
    (cs : CacheStorage) : CacheStorage :=
  if String.eqb (method req) "GET" && storable resp
  then caches_update name (fun c => <[href (url req) := resp]> c) (caches_open name cs)
  else caches_open name cs.

(** [caches.match(req)]: the first match over all caches. *)
Fixpoint caches_match (cs : CacheStorage) (req : Request) : option Response :=
  match cs with
  | [] => None
  | (_, c) :: rest =>
      match cache_match c req with
      | Some r => Some r
      | None => caches_match rest req
      end
  end.

Definition is_tile_host (h : string) : bool :=
  includes h "tile.openstreetmap.org" ||
  includes h "arcgisonline.com" ||
  includes h "server.arcgisonline.com".

(** [new Response('', { status: 404 })] *)
Definition tile_placeholder : Response :=
  new_Response (BodyText EmptyString) (Some 404%Z) [].

(** [new Response(JSON.stringify({ offline: true, error: 'No connection' }),
                  { headers: { 'Content-Type': 'application/json' } })] *)
Definition offline_marker : Response :=
  new_Response
    (BodyJSON (JObj {[ "offline" := JBool true; "error" := JStr "No connection" ]}))
    None [("Content-Type", "application/json")].

(** [new Response('Offline', { status: 503 })] *)
Definition offline_503 : Response :=
  new_Response (BodyText "Offline") (Some 503%Z) [].

(** What handling one fetch event comes to: how the promise given to
    [event.respondWith] settles (a rejection reaches the page as a failed
    [fetch]), the caches afterwards, and the requests sent to the network. *)
Record Handled := mkHandled {
  respond : Settled Response;
  h_caches : CacheStorage;
  h_net : list Request
}.

Section FetchHandler.
(** The network as seen from the worker, and the request that the string
    ['/'] given to [caches.match] stands for (a GET of the scope's root). *)
Variable net : Request -> Settled Response.
Variable root : Request.

(** [self.addEventListener('fetch', ...)] *)
Definition on_fetch (cs : CacheStorage) (req : Request) : Handled :=
  if is_tile_host (hostname (url req)) then
    (* map tiles *)
    let cs1 := caches_open TILE_CACHE cs in
    match cache_match (cache_content TILE_CACHE cs1) req with
    | Some response => mkHandled (Fulfilled response) cs1 []
    | None =>
        match net req with
        | Fulfilled networkResponse =>
            mkHandled (Fulfilled networkResponse)
                      (caches_put TILE_CACHE req networkResponse cs1) [req]
        | Rejected => mkHandled (Fulfilled tile_placeholder) cs1 [req]
        end
    end
  else if startsWith (pathname (url req)) "/api/" then
    (* API requests *)
    match net req with
    | Fulfilled response =>
        if String.eqb (method req) "GET" && ok response
        then mkHandled (Fulfilled response)
                       (caches_put DATA_CACHE req response cs) [req]
        else mkHandled (Fulfilled response) cs [req]
    | Rejected =>
        match caches_match cs req with
        | Some cached => mkHandled (Fulfilled cached) cs [req]
        | None => mkHandled (Fulfilled offline_marker) cs [req]
        end
    end
  else
    (* everything else *)
    match caches_match cs req with
    | Some cached => mkHandled (Fulfilled cached) cs []
    | None =>
        match net req with
        | Fulfilled response =>
            if ok response && String.eqb (method req) "GET"
            then mkHandled (Fulfilled response)
                           (caches_put CACHE_NAME req response cs) [req]
            else mkHandled (Fulfilled response) cs [req]
        | Rejected =>
            if default false ((fun a => includes a "text/html") <$> accept req)
            then match caches_match cs root with
                 | Some page => mkHandled (Fulfilled page) cs [req]
                 | None => mkHandled Rejected cs [req]
                 end
            else mkHandled (Fulfilled offline_503) cs [req]
        end
    end.
End FetchHandler.

(** *** The tile prefetcher

    Coordinates, zoom levels and tile indices are numbers (binary64) and
    the loops count in them.  [Math.log], [Math.tan], [Math.cos], the
    general [Math.pow] and the rendering of a number in a template literal
    are the platform's and are parameters. *)

Record Bounds := mkBounds {
  north : float;
  south : float;
  east : float;
  west : float
}.

Record Tile := mkTile {
  tile_x : float;
  tile_y : float
}.

Definition baseUrl : string :=
  "https://server.arcgisonline.com/ArcGIS/rest/services/World_Imagery/MapServer/tile".

Section Prefetch.
Import JSNumber.
Variables Math_log Math_tan Math_cos : float -> float.
Variable Math_pow : float -> float -> float.
Variable Number_toString : float -> string.

(** [`${baseUrl}/${z}/${y}/${x}`] *)
Definition tile_url (z y x : float) : string :=
  baseUrl +:+ "/" +:+ Number_toString z +:+ "/" +:+ Number_toString y
          +:+ "/" +:+ Number_toString x.

Definition latLngToTile (lat lng zoom : float) : Tile :=
  {| tile_x := Math_floor ((lng + 180) / 360 * Math_pow2 Math_pow zoom)%float;
     tile_y :=
       Math_floor
         ((1 - Math_log (Math_tan (lat * Math_PI / 180)
                         + 1 / Math_cos (lat * Math_PI / 180)) / Math_PI)
          / 2 * Math_pow2 Math_pow zoom)%float |}.

(** [getTileUrls(bounds, maxZoom)]; [None] when [fuel] does not suffice
    for one of the loops. *)
Definition getTileUrls (fuel : nat) (bounds : Bounds) (maxZoom : float)
    : option (list string) :=
  for_upto fuel 14%float maxZoom (fun z =>
    let minTile := latLngToTile (south bounds) (west bounds) z in
    let maxTile := latLngToTile (north bounds) (east bounds) z in
    for_upto fuel (tile_x minTile) (tile_x maxTile) (fun x =>
      for_upto fuel (tile_y maxTile) (tile_y minTile) (fun y =>
        Some [tile_url z y x]))).

(** The same three loops, collecting the tile [(z, x, y)] where
    [getTileUrls] pushes its URL. *)
Definition tile_visits (fuel : nat) (bounds : Bounds) (maxZoom : float)
    : option (list (float * float * float)) :=
  for_upto fuel 14%float maxZoom (fun z =>
    let minTile := latLngToTile (south bounds) (west bounds) z in
    let maxTile := latLngToTile (north bounds) (east bounds) z in
    for_upto fuel (tile_x minTile) (tile_x maxTile) (fun x =>
      for_upto fuel (tile_y maxTile) (tile_y minTile) (fun y =>
        Some [(z, x, y)]))).



End Prefetch.

(** The policy table's row for API mutations, read literally: sent to the
    network, answered with the network's response, nothing cached, and a
    network failure handed on to the caller as a failure. *)
Definition mutation_policy (net : Request -> Settled Response) (root : Request)
    (cs : CacheStorage) (req : Request) : Prop :=
  startsWith (pathname (url req)) "/api/" = true ->
  method req <> "GET" ->
  let r := on_fetch net root cs req in
  h_net r = [req] /\
  (forall name, cache_content name (h_caches r) = cache_content name cs) /\
  (forall resp, net req = Fulfilled resp -> respond r = Fulfilled resp) /\
  (net req = Rejected -> respond r = Rejected).

End SW.

(* ===================================================================== *)
(** ** Sample data for the closed examples *)
(* ===================================================================== *)

Module Samples.
Import Offline.

(** A link that is down: every [fetch] rejects. *)
Definition fetch_down (_ : FetchCall) (n : unit) : Settled Response * unit :=
  (Rejected, n).

(** A scripted transport: the outcomes of the successive [fetch] calls. *)
Definition fetch_script (_ : FetchCall) (script : list (Settled Response))
    : Settled Response * list (Settled Response) :=
  match script with
  | [] => (Rejected, [])
  | o :: rest => (o, rest)
  end.

Definition resp_created : Response := mkResponse 201 [] (BodyText "created").
Definition resp_error : Response := mkResponse 500 [] (BodyText "error").

Definition well_point : jsobj :=
  {[ "label" := JStr "Well"; "lat" := JNum 39.125%float;
     "lon" := JNum (-104.875)%float; "type" := JStr "well_location";
     "timestamp" := JStr "2024-05-01T10:00:00.000Z" ]}.

(** One queued GPS append. *)
Definition db_one : DB :=
  addToSyncQueue "POST" "/api/projects/7/gps" (JObj well_point) 1000%float
    initOfflineDB.

(** Three queued mutations. *)
Definition db_three : DB :=
  addToSyncQueue "PUT" "/api/projects/7" (JObj ∅) 3000%float
    (addToSyncQueue "POST" "/api/projects/7/photo" (JObj ∅) 2000%float db_one).

(** A worker-side network that is down. *)
Definition net_down (_ : SW.Request) : Settled Response := Rejected.

Definition req_root : SW.Request :=
  SW.mkRequest (SW.mkURL "https://field.example/" "field.example" "/")
               "GET" (Some "text/html").

(** The GPS append of project 7, as the worker sees it. *)
Definition req_post_gps : SW.Request :=
  SW.mkRequest (SW.mkURL "https://field.example/api/projects/7/gps"
                         "field.example" "/api/projects/7/gps")
               "POST" None.

(** A read of project 7. *)
Definition req_get_project : SW.Request :=
  SW.mkRequest (SW.mkURL "https://field.example/api/projects/7"
                         "field.example" "/api/projects/7")
               "GET" None.

(** One imagery tile. *)
Definition req_tile : SW.Request :=
  SW.mkRequest
    (SW.mkURL "https://server.arcgisonline.com/ArcGIS/rest/services/World_Imagery/MapServer/tile/14/6200/3400"
              "server.arcgisonline.com"
              "/ArcGIS/rest/services/World_Imagery/MapServer/tile/14/6200/3400")
    "GET" None.

(** A page of project 7 with a position fix that has no altitude (so that
    [Math.round] is never called and any function can stand for it). *)
Definition no_round (x : float) : float := x.
Definition show_7 (_ : jsval) : string := "7".

Definition page_7 : Visit.Page :=
  Visit.mkPage (JNum 7%float) (Some [])
    (Some (Visit.mkGPS 39.125%float (-104.875)%float 5%float None None
             "2024-05-01T09:59:58.000Z"))
    (JStr "well_location") initOfflineDB [].

(** The page's [fetch] as it goes through the worker while the network is
    unreachable: the transport state is the worker's cache storage. *)
Definition worker_request (c : FetchCall) : SW.Request :=
  SW.mkRequest
    (SW.mkURL ("https://field.example" +:+ fc_resource c) "field.example"
              (fc_resource c))
    (fc_method c) None.

Definition fetch_through_worker (c : FetchCall) (cs : SW.CacheStorage)
    : Settled Response * SW.CacheStorage :=
  let h := SW.on_fetch net_down req_root cs (worker_request c) in
  (SW.respond h, SW.h_caches h).

(** The same page of project 7 after a failed [loadProject]:
    [projectData] is [undefined]. *)
Definition page_7_unloaded : Visit.Page :=
  Visit.mkPage (JNum 7%float) None
    (Some (Visit.mkGPS 39.125%float (-104.875)%float 5%float None None
             "2024-05-01T09:59:58.000Z"))
    (JStr "well_location") initOfflineDB [].

(** A partial-content response and one that varies on everything. *)
Definition resp_partial : Response := mkResponse 206 [] (BodyText "part").
Definition resp_vary_star : Response :=
  mkResponse 200 [("Vary", "Accept-Encoding, *")] (BodyText "content").

(** A point that brings its own key. *)
Definition keyed_point : jsobj := <["localId" := JNum 5%float]> well_point.

(** A box of about two tiles by two at zoom 14.  For the closed examples
    stand-ins take the place of the platform's functions: they agree with
    [Math.tan], [Math.cos], [Math.log] to first order only, and
    [show_index] renders the integers the way a template literal does. *)
Definition box_small : SW.Bounds :=
  SW.mkBounds 39.02%float 39.0%float (-104.98)%float (-105.0)%float.
Definition tan_standin (x : float) : float := x.
Definition cos_standin (_ : float) : float := 1%float.
Definition log_standin (x : float) : float := (x - 1)%float.
Definition pow_standin (_ _ : float) : float := PrimFloat.nan.
Definition show_index (x : float) : string :=
  match JSNumber.floor_Z x with
  | Some z => if JSNumber.is_integer x then pretty z else "NaN"
  | None => "NaN"
  end.

(** Two runs over [db_one], both past their [fetch] of its one record. *)
Definition sys_twice : Overlap.Sys :=
  let item := mkSyncItem 1 "POST" "/api/projects/7/gps" (JObj well_point)
                1000%float 0 in
  Overlap.mkSys db_one [(0, item); (1, item)]
    [Overlap.TAwaitFetch item [] 0 0; Overlap.TAwaitFetch item [] 0 0].

End Samples.

(* ===================================================================== *)
(** ** The page behind its service worker

    Once the worker controls the page, every [fetch] of the page is a
    fetch event of the worker, and what the page gets is what the handler
    gives to [respondWith]; the server sees only what the handler sends
    on.  The transport of the reconciler is then the handler in front of
    the network, its state the worker's caches. *)
(* ===================================================================== *)

Module Behind.
Import Offline Samples.



End Behind.

(* ===================================================================== *)
(** ** sw.js: activation and the tile prefetch *)
(* ===================================================================== *)

Module Worker.
Import SW.

(** [caches.keys()] *)
Definition caches_keys (cs : CacheStorage) : list string := cs.*1.

(** [caches.delete(key)] *)
Definition caches_delete (key : string) (cs : CacheStorage) : CacheStorage :=
  filter (fun nc => nc.1 <> key) cs.

(** The [activate] listener: every cache whose name is none of the three
    current names is deleted. *)
Definition on_activate (cs : CacheStorage) : CacheStorage :=
  foldr caches_delete cs
    (filter (fun key => key <> CACHE_NAME /\ key <> TILE_CACHE /\ key <> DATA_CACHE)
            (caches_keys cs)).

(** [cache.put(url, response)] with the URL given as a string (a GET);
    nothing is stored when the response is not [storable]. *)
Definition caches_put_url (name url : string) (resp : Response)
    (cs : CacheStorage) : CacheStorage :=
  if storable resp
  then caches_update name (fun c => <[url := resp]> c) (caches_open name cs)
  else caches_open name cs.

(** The message [{ type: 'tiles-cached', count, total }]. *)
Record TilesCached := mkTilesCached {
  tc_count : nat;
  tc_total : nat
}.

(** The state of the loop of [cacheTilesForArea]: the counter, the caches
    and the URLs fetched so far. *)
Record Prefetching := mkPrefetching {
  pf_cached : nat;
  pf_caches : CacheStorage;
  pf_fetched : list string
}.

Section Prefetcher.
(** The network as the worker's own [fetch(url)] sees it (such a fetch does
    not pass through the worker's fetch handler), and the platform's
    functions that [getTileUrls] uses. *)
Variable net : string -> Settled Response.
Variables Math_log Math_tan Math_cos : float -> float.
Variable Math_pow : float -> float -> float.
Variable Number_toString : float -> string.

(** Did [fetch(url)] give an ok response. *)
Definition fetched_ok (url : string) : bool :=
  match net url with
  | Fulfilled response => ok response
  | Rejected => false
  end.

(** Did [fetch(url)] give an ok response that [cache.put] accepts. *)
Definition fetched_and_stored (url : string) : bool :=
  match net url with
  | Fulfilled response => ok response && storable response
  | Rejected => false
  end.

(** One round of [for (const url of tileUrls)]: the [put] is awaited, so
    when it rejects control goes to the [catch] and [cached++] is skipped. *)
Definition cache_tile (url : string) (st : Prefetching) : Prefetching :=
  match net url with
  | Fulfilled response =>
      if ok response
      then if storable response
           then mkPrefetching (S (pf_cached st))
                  (caches_put_url TILE_CACHE url response (pf_caches st))
                  (pf_fetched st ++ [url])
           else mkPrefetching (pf_cached st)
                  (caches_put_url TILE_CACHE url response (pf_caches st))
                  (pf_fetched st ++ [url])
      else mkPrefetching (pf_cached st) (pf_caches st) (pf_fetched st ++ [url])
  | Rejected =>
      mkPrefetching (pf_cached st) (pf_caches st) (pf_fetched st ++ [url])
  end.

Fixpoint cache_tiles (urls : list string) (st : Prefetching) : Prefetching :=
  match urls with
  | [] => st
  | url :: rest => cache_tiles rest (cache_tile url st)
  end.

(** [cacheTilesForArea(bounds, maxZoom)]: the final loop state and the
    message posted to every client; [None] when [getTileUrls] does not
    return within [fuel]. *)
Definition cacheTilesForArea (fuel : nat) (bounds : Bounds) (maxZoom : float)
    (cs : CacheStorage) : option (Prefetching * TilesCached) :=
  let cs1 := caches_open TILE_CACHE cs in
  match getTileUrls Math_log Math_tan Math_cos Math_pow Number_toString
          fuel bounds maxZoom with
  | Some tileUrls =>
      let st := cache_tiles tileUrls (mkPrefetching 0 cs1 []) in
      Some (st, mkTilesCached (pf_cached st) (length tileUrls))
  | None => None
  end.
End Prefetcher.


End Worker.

(* ===================================================================== *)
(** ** offline.js: the keyed stores; visit.js: loading, pins and notes *)
(* ===================================================================== *)

Module Stores.
Import Offline Visit.

(** How the server's answer to [fetch(`/api/projects/${projectId}`)]
    reaches [loadProject]: the fetch fails, the response is not ok, it is
    ok and [response.json()] gives a value, or it is ok and its body does
    not parse. *)
Inductive ServerReply :=
| NetFail
| NotOk
| OkJson (v : jsval)
| OkNoJson.

Section Keyed.
(** IndexedDB keys, and the conversion of a value to a key ([None]: the
    value is not a valid key and the request throws a DataError). *)
Context {K : Type} `{Countable K}.
Variable to_key : jsval -> option K.

(** [saveProjectLocal(project)]: the object is stamped in place, then put
    under its [id].  Returns the stamped object (the caller's object, too,
    is now this one) and how the promise settles. *)
Definition saveProjectLocal (project : jsobj) (now : float)
    (projects : gmap K jsobj) : jsobj * Settled (gmap K jsobj) :=
  let project' :=
    <["lastModified" := JNum now]> (<["synced" := JBool false]> project) in
  (project',
   match project' !! "id" ≫= to_key with
   | Some k => Fulfilled (<[k := project']> projects)
   | None => Rejected
   end).

(** [getProjectLocal(projectId)]: [request.result], [undefined] if absent. *)
Definition getProjectLocal (projectId : jsval) (projects : gmap K jsobj)
    : Settled jsval :=
  match to_key projectId with
  | Some k => Fulfilled (from_option JObj JUndefined (projects !! k))
  | None => Rejected
  end.

(** [saveBoundaryLocal(parcelId, boundaryData)] *)
Definition saveBoundaryLocal (parcelId boundaryData : jsval) (now : float)
    (boundaries : gmap K jsobj) : Settled (gmap K jsobj) :=
  match to_key parcelId with
  | Some k =>
      Fulfilled (<[k := {[ "parcel_id" := parcelId; "data" := boundaryData;
                           "cached" := JNum now ]}]> boundaries)
  | None => Rejected
  end.

(** [getBoundaryLocal(parcelId)]: [request.result?.data] *)
Definition getBoundaryLocal (parcelId : jsval) (boundaries : gmap K jsobj)
    : Settled jsval :=
  match to_key parcelId with
  | Some k =>
      Fulfilled (match boundaries !! k with
                 | Some rec => default JUndefined (rec !! "data")
                 | None => JUndefined
                 end)
  | None => Rejected
  end.

(** [getGPSPointsLocal(projectId)]: [index('project_id').getAll(projectId)],
    the records whose [project_id] is that key, by ascending primary key. *)
Definition getGPSPointsLocal (projectId : jsval) (db : DB)
    : Settled (list jsobj) :=
  match to_key projectId with
  | Some k =>
      Fulfilled (filter (fun v : jsobj => v !! "project_id" ≫= to_key = Some k)
                        (rows (gps_points db)).*2)
  | None => Rejected
  end.

(** What [loadProject] works on: [projectData] and the projects store. *)
Record Loader := mkLoader {
  ld_projectData : jsval;
  ld_projects : gmap K jsobj
}.

(** The [catch] block of [loadProject]: [projectData] becomes what the
    local store has; if the lookup itself throws, [loadProject] rejects. *)
Definition load_from_cache (projectId : jsval) (st : Loader) : Loader * bool :=
  match getProjectLocal projectId (ld_projects st) with
  | Fulfilled v => (mkLoader v (ld_projects st), true)
  | Rejected => (st, false)
  end.

(** [loadProject()] up to the point where the page is filled in; the
    boolean tells whether the function ran to its end (rather than
    rejecting). *)
Definition loadProject (projectId : jsval) (online : bool) (reply : ServerReply)
    (now : float) (st : Loader) : Loader * bool :=
  if online then
    match reply with
    | OkJson (JObj o) =>
        let '(o', saved) := saveProjectLocal o now (ld_projects st) in
        match saved with
        | Fulfilled projects' => (mkLoader (JObj o') projects', true)
        | Rejected => load_from_cache projectId (mkLoader (JObj o') (ld_projects st))
        end
    | OkJson v => load_from_cache projectId (mkLoader v (ld_projects st))
    | NetFail | NotOk | OkNoJson => load_from_cache projectId st
    end
  else load_from_cache projectId st.

(** What [saveNotes] works on. *)
Record Notes := mkNotes {
  n_projectId : jsval;
  n_projectData : jsobj;
  n_projects : gmap K jsobj;
  n_db : DB;
  n_sent : list FetchCall
}.

Variable ToString : jsval -> string.

Definition project_endpoint (pid : jsval) : string :=
  "/api/projects/" +:+ ToString pid.

(** The fallback of [saveNotes]: save the project locally and queue a PUT
    of it; if the local save throws, [saveNotes] rejects. *)
Definition notes_fallback (nowP nowQ : float) (st : Notes) : Notes * bool :=
  let '(pd', saved) := saveProjectLocal (n_projectData st) nowP (n_projects st) in
  match saved with
  | Fulfilled projects' =>
      (mkNotes (n_projectId st) pd' projects'
               (addToSyncQueue "PUT" (project_endpoint (n_projectId st))
                               (JObj pd') nowQ (n_db st))
               (n_sent st), true)
  | Rejected =>
      (mkNotes (n_projectId st) pd' (n_projects st) (n_db st) (n_sent st), false)
  end.

(** [saveNotes()]; the three strings are the values of the notes fields,
    [nowP], [nowP'] the clock at the first and at the fallback local save,
    [nowQ] the clock at the enqueue. *)
Definition saveNotes (concerns findings recommendations : string)
    (online : bool) (server : Settled Response) (nowP nowP' nowQ : float)
    (st : Notes) : Notes * bool :=
  let notes : jsobj :=
    {[ "concerns" := JStr concerns; "findings" := JStr findings;
       "recommendations" := JStr recommendations ]} in
  let pd := <["notes" := JObj notes]> (n_projectData st) in
  let st1 := mkNotes (n_projectId st) pd (n_projects st) (n_db st) (n_sent st) in
  if online then
    let call := {| fc_resource := project_endpoint (n_projectId st);
                   fc_method := "PUT";
                   fc_headers := [("Content-Type", "application/json")];
                   fc_body := JObj pd |} in
    let st2 := mkNotes (n_projectId st) pd (n_projects st) (n_db st)
                       (n_sent st ++ [call]) in
    match server with
    | Fulfilled _ => (st2, true)
    | Rejected => notes_fallback nowP' nowQ st2
    end
  else
    let '(st2, done) := notes_fallback nowP nowQ st1 in
    if done then (st2, true) else notes_fallback nowP' nowQ st2.
End Keyed.

Section Pins.
Variable Math_round : float -> float.
Variable ToString : jsval -> string.

(** The object literal [point] built by [savePinFromPopup]; [labelValue]
    is [labelInput?.value]. *)
Definition make_pin (labelValue : jsval) (lat lng : float) (altitude : jsval)
    (g : option GPSReading) (iso : string) : jsobj :=
  let elevFeet :=
    if js_truthy altitude
    then match altitude with
         | JNum a => JNum (Math_round (a * 3.28084)%float)
         | _ => JNum PrimFloat.nan     (* altitude is a number or null *)
         end
    else JNull in
  {[ "label" := js_or labelValue (JStr "Marker");
     "lat" := JNum lat;
     "lon" := JNum lng;
     "altitude_m" := altitude;
     "elevation_ft" := elevFeet;
     "accuracy" := js_or (opt_chain g (fun r => JNum (g_accuracy r))) JNull;
     "type" := JStr "map_pin";
     "timestamp" := JStr iso ]}.

(** [savePinFromPopup(lat, lng, altitude)]: the point is posted; only when
    the POST settles is it appended to [projectData.gps_points], and when
    [projectData] is [null] or [undefined] that push throws and the
    [catch] block swallows the error.  The function always runs to its
    end. *)
Definition savePinFromPopup (labelValue : jsval) (lat lng : float)
    (altitude : jsval) (iso : string) (server : Settled Response)
    (p : Page) : Page :=
  let point := make_pin labelValue lat lng altitude (currentGPS p) iso in
  let call := {| fc_resource := gps_endpoint ToString (projectId p);
                 fc_method := "POST";
                 fc_headers := [("Content-Type", "application/json")];
                 fc_body := JObj point |} in
  let p1 := mkPage (projectId p) (gps_points_mem p) (currentGPS p)
                   (pendingGPSLabel p) (db p) (sent p ++ [call]) in
  match server with
  | Fulfilled _ => default p1 (push_point point p1)
  | Rejected => p1
  end.
End Pins.

(** Keys for the closed examples: strings only. *)
Definition string_key (v : jsval) : option string :=
  match v with
  | JStr s => Some s
  | _ => None
  end.

Definition project_42 : jsobj :=
  {[ "id" := JStr "42"; "status" := JStr "draft" ]}.

End Stores.

(* ===================================================================== *)
(** ** sw.js: installation, and a worker's life as a series of events *)
(* ===================================================================== *)

Module Lifecycle.
Import SW Worker.

(** The app shell. *)
Definition APP_FILES : list string :=
  ["/"; "/login"; "/static/css/style.css"; "/static/js/visit.js";
   "/static/js/offline.js"; "/static/manifest.json";
   "https://unpkg.com/leaflet@1.9.4/dist/leaflet.css";
   "https://unpkg.com/leaflet@1.9.4/dist/leaflet.js"].

Section Install.
(** The network by absolute URL, and the resolution of a URL as written
    against the worker's location. *)
Variable net : string -> Settled Response.
Variable resolve : string -> string.

(** [cache.addAll(files)]: every file is fetched; unless every response is
    ok and one that [cache.put] accepts, the promise rejects and nothing
    is stored. *)
Definition addAll (name : string) (files : list string) (cs : CacheStorage)
    : Settled CacheStorage :=
  if forallb (fun f => fetched_and_stored net (resolve f)) files
  then Fulfilled
         (foldl (fun acc f =>
                   match net (resolve f) with
                   | Fulfilled r => caches_put_url name (resolve f) r acc
                   | Rejected => acc
                   end) cs files)
  else Rejected.

(** The [install] listener: the promise given to [event.waitUntil]. *)
Definition on_install (cs : CacheStorage) : Settled CacheStorage :=
  addAll CACHE_NAME APP_FILES (caches_open CACHE_NAME cs).
End Install.

(** A series of fetch events, each with the state of the network at its
    time: the settlements of the handler's promises and the caches at the
    end. *)
Fixpoint on_fetches (root : Request)
    (events : list ((Request -> Settled Response) * Request))
    (cs : CacheStorage) : list (Settled Response) * CacheStorage :=
  match events with
  | [] => ([], cs)
  | (net, req) :: rest =>
      let h := on_fetch net root cs req in
      let '(outs, cs') := on_fetches root rest (h_caches h) in
      (respond h :: outs, cs')
  end.

(** Some cache holds the request. *)
Definition held (root : Request) (cs : CacheStorage) : Prop :=
  is_Some (caches_match cs root).

(** For the closed examples: a worker served from [field.example], a
    network that answers everything, and a navigation to a visit page. *)
Definition resolve_example (f : string) : string :=
  if String.prefix "https://" f then f else "https://field.example" +:+ f.

Definition net_up (_ : string) : Settled Response :=
  Fulfilled (mkResponse 200 [] (BodyText "content")).

Definition req_visit : Request :=
  mkRequest (mkURL "https://field.example/visit/7" "field.example" "/visit/7")
            "GET" (Some "text/html,application/xhtml+xml").

Definition installed_example : CacheStorage :=
  match on_install net_up resolve_example [] with
  | Fulfilled cs => cs
  | Rejected => []
  end.

End Lifecycle.

(* ===================================================================== *)
(** * Part II: lemmas and theorems *)
(* ===================================================================== *)

(** ** The sync queue *)

Module OfflineFacts.
Import Offline.

Lemma wf_queue_empty : wf_queue empty_store.
Proof. split; constructor. Qed.

(** Keys below the generator stay below it after one more is drawn. *)
Lemma wf_queue_add mk (s : ObjectStore SyncItem) :
  (forall k, sq_id (mk k) = k) ->
  wf_queue s -> wf_queue (store_add mk s).
Proof.
  intros Hmk [Hs Hb]. unfold store_add, wf_queue; simpl.
  rewrite fmap_app; simpl. rewrite Hmk. split.
  - induction (rows s) as [|r l IH]; simpl in *.
    + repeat constructor.
    + inversion Hs; subst. inversion Hb; subst. constructor.
      * apply IH; assumption.
      * apply Forall_app; split; [assumption|]. repeat constructor. assumption.
  - apply Forall_app; split.
    + eapply Forall_impl; [exact Hb|]. simpl. intros; lia.
    + repeat constructor. lia.
Qed.

Lemma wf_queue_delete k (s : ObjectStore SyncItem) :
  wf_queue s -> wf_queue (store_delete sq_id k s).
Proof.
  intros [Hs Hb]. unfold store_delete, wf_queue; simpl. split.
  - induction (rows s) as [|r l IH]; simpl in *; [constructor|].
    inversion Hs; subst. inversion Hb; subst.
    rewrite filter_cons. destruct (decide (sq_id r <> k)); simpl.
    + constructor; [apply IH; assumption|].
      rewrite Forall_forall in *. intros x Hx. apply H2.
      apply list_elem_of_fmap in Hx as (y & -> & Hy).
      apply list_elem_of_filter in Hy as [_ Hy].
      apply list_elem_of_fmap_2. exact Hy.
    + apply IH; assumption.
  - rewrite Forall_forall in *. intros x Hx. apply Hb.
    apply list_elem_of_fmap in Hx as (y & -> & Hy).
    apply list_elem_of_filter in Hy as [_ Hy].
    apply list_elem_of_fmap_2. exact Hy.
Qed.

(** Strictly increasing keys are pairwise distinct. *)
Lemma wf_queue_NoDup (s : ObjectStore SyncItem) :
  wf_queue s -> NoDup (sq_id <$> rows s).
Proof.
  intros [Hs _]. generalize dependent (sq_id <$> rows s). intros l Hs.
  induction Hs as [|a l Hs IH Hall]; constructor; [|assumption].
  intros Hin. rewrite Forall_forall in Hall. specialize (Hall _ Hin). lia.
Qed.


Section DrainFacts.
Context {Net : Type}.
Variable fetch : FetchCall -> Net -> Settled Response * Net.

Local Abbreviation queue st := (rows (sync_queue (ds_db st))).

(** What one iteration does, by the outcome of its [fetch]. *)
Lemma sync_item_cases item (st : DrainState Net) :
  exists o net',
    fetch (sync_request item) (ds_net st) = (o, net') /\
    ds_trace (sync_item fetch item st) = ds_trace st ++ [(item, o)] /\
    ds_net (sync_item fetch item st) = net' /\
    if acked o
    then ds_db (sync_item fetch item st)
           = removeFromSyncQueue (sq_id item) (ds_db st) /\
         synced (sync_item fetch item st) = (synced st + 1)%N /\
         failed (sync_item fetch item st) = failed st
    else ds_db (sync_item fetch item st) = ds_db st /\
         synced (sync_item fetch item st) = synced st /\
         failed (sync_item fetch item st) = (failed st + 1)%N.
Proof.
  unfold sync_item. destruct (fetch _ _) as [o net'].
  exists o, net'. destruct o as [r|]; unfold acked; [destruct (ok r)|];
    cbn; repeat split; reflexivity.
Qed.

(** An iteration leaves alone every record with another key. *)
Lemma sync_item_queue_other item (st : DrainState Net) e :
  sq_id e <> sq_id item ->
  e ∈ queue (sync_item fetch item st) <-> e ∈ queue st.
Proof.
  intros Hne.
  destruct (sync_item_cases item st) as (o & net' & _ & _ & _ & Hc).
  destruct (acked o).
  - destruct Hc as (-> & _). simpl. rewrite list_elem_of_filter. tauto.
  - destruct Hc as (-> & _). tauto.
Qed.

(** An iteration never adds a record. *)
Lemma sync_item_queue_sub item (st : DrainState Net) e :
  e ∈ queue (sync_item fetch item st) -> e ∈ queue st.
Proof.
  destruct (sync_item_cases item st) as (o & net' & _ & _ & _ & Hc).
  destruct (acked o).
  - destruct Hc as (-> & _). simpl. rewrite list_elem_of_filter. tauto.
  - destruct Hc as (-> & _). tauto.
Qed.

Lemma sync_items_queue_other pending : forall (st : DrainState Net) e,
  sq_id e ∉ sq_id <$> pending ->
  e ∈ queue (sync_items fetch pending st) <-> e ∈ queue st.
Proof.
  induction pending as [|item rest IH]; intros st e Hnot; simpl; [tauto|].
  rewrite fmap_cons in Hnot. apply not_elem_of_cons in Hnot as [Hne Hnot].
  rewrite IH by assumption. apply sync_item_queue_other. assumption.
Qed.

Lemma sync_items_queue_sub pending : forall (st : DrainState Net) e,
  e ∈ queue (sync_items fetch pending st) -> e ∈ queue st.
Proof.
  induction pending as [|item rest IH]; intros st e; simpl; [tauto|].
  intros H. apply IH in H. eapply sync_item_queue_sub. exact H.
Qed.

(** The attempts are the pending items, in order, one each. *)
Lemma sync_items_trace pending : forall (st : DrainState Net),
  (ds_trace (sync_items fetch pending st)).*1
    = (ds_trace st).*1 ++ pending.
Proof.
  induction pending as [|item rest IH]; intros st; simpl.
  - rewrite app_nil_r. reflexivity.
  - rewrite IH.
    destruct (sync_item_cases item st) as (o & net' & _ & -> & _).
    rewrite fmap_app, <- app_assoc. reflexivity.
Qed.

(** The loop invariant behind removal: an attempt made by this run has
    its record in the queue afterwards exactly when the record was there
    and the attempt was not acknowledged. *)
Lemma sync_items_removed pending : forall (st : DrainState Net) e o,
  NoDup (sq_id <$> pending) ->
  (e, o) ∈ ds_trace (sync_items fetch pending st) ->
  (e, o) ∈ ds_trace st \/
  (e ∈ pending /\
   (e ∈ queue (sync_items fetch pending st)
      <-> e ∈ queue st /\ acked o = false)).
Proof.
  induction pending as [|item rest IH]; intros st e o Hnd Hin; simpl in *.
  - left. assumption.
  - apply NoDup_cons in Hnd as [Hfresh Hnd].
    destruct (IH _ _ _ Hnd Hin) as [Hold | [Hrest Hiff]].
    + destruct (sync_item_cases item st) as (o' & net' & _ & Htr & _ & Hc).
      rewrite Htr in Hold. apply elem_of_app in Hold as [Hold | Hnew].
      * left. assumption.
      * right. apply list_elem_of_singleton in Hnew.
        injection Hnew as -> ->. split; [left|].
        rewrite sync_items_queue_other by assumption.
        destruct (acked o').
        -- destruct Hc as (-> & _). simpl. rewrite list_elem_of_filter.
           split; [tauto | intros [_ ?]; discriminate].
        -- destruct Hc as (-> & _). tauto.
    + right. split; [right; assumption|].
      rewrite Hiff. rewrite sync_item_queue_other; [tauto|].
      intros Heq. apply Hfresh. rewrite <- Heq.
      apply list_elem_of_fmap_2. assumption.
Qed.

(** The two counters count the acknowledged and the failed attempts. *)
Lemma sync_items_counters pending : forall (st : DrainState Net),
  let st' := sync_items fetch pending st in
  exists tr, ds_trace st' = ds_trace st ++ tr /\
    synced st' = (synced st + N.of_nat (length (filter (fun p => acked p.2 = true) tr)))%N /\
    failed st' = (failed st + N.of_nat (length (filter (fun p => acked p.2 = false) tr)))%N.
Proof.
  induction pending as [|item rest IH]; intros st; simpl.
  - exists []. rewrite app_nil_r. simpl. split; [reflexivity|]. split; lia.
  - destruct (IH (sync_item fetch item st)) as (tr & Htr & Hs & Hf).
    destruct (sync_item_cases item st) as (o & net' & _ & Htr1 & _ & Hc).
    exists ((item, o) :: tr). rewrite Htr, Htr1, <- app_assoc. simpl.
    split; [reflexivity|]. rewrite Hs, Hf, !filter_cons. simpl.
    destruct (acked o) eqn:Ho.
    + destruct Hc as (_ & -> & ->).
      destruct (decide (true = true)); [|congruence].
      destruct (decide (true = false)); [congruence|]. simpl. split; lia.
    + destruct Hc as (_ & -> & ->).
      destruct (decide (false = true)); [congruence|].
      destruct (decide (false = false)); [|congruence]. simpl. split; lia.
Qed.
(** The loop asks the transport for exactly what the yardstick asks, in
    the same order: its record of outcomes and the transport it leaves are
    those of [attempts]. *)
Lemma sync_items_attempts pending : forall (st : DrainState Net),
  ds_trace (sync_items fetch pending st)
    = ds_trace st ++ (attempts fetch pending (ds_net st)).1 /\
  ds_net (sync_items fetch pending st) = (attempts fetch pending (ds_net st)).2.
Proof.
  induction pending as [|item rest IH]; intros st; simpl.
  - rewrite app_nil_r. split; reflexivity.
  - destruct (IH (sync_item fetch item st)) as [Htr Hnet].
    destruct (sync_item_cases item st) as (o & net' & Hf & Htr1 & Hnet1 & _).
    rewrite Htr, Hnet, Htr1, Hnet1, Hf.
    destruct (attempts fetch rest net') as [tr net2]. simpl.
    rewrite <- app_assoc. split; reflexivity.
Qed.

Lemma syncPendingData_attempts (db : DB) (net : Net) :
  (ds_trace (syncPendingData fetch true db net),
   ds_net (syncPendingData fetch true db net))
    = attempts fetch (getPendingSyncs db) net.
Proof.
  unfold syncPendingData. simpl.
  destruct (sync_items_attempts (getPendingSyncs db) (mkDrain 0 0 db net []))
    as [Htr Hnet].
  simpl in *. rewrite Htr, Hnet.
  destruct (attempts fetch (getPendingSyncs db) net). reflexivity.
Qed.

(** The yardstick lists every record once, in order. *)
Lemma attempts_items pending : forall (net : Net),
  (attempts fetch pending net).1.*1 = pending.
Proof.
  induction pending as [|item rest IH]; intros net; simpl; [reflexivity|].
  destruct (fetch (sync_request item) net) as [o net1].
  specialize (IH net1). destruct (attempts fetch rest net1) as [tr net2].
  simpl in *. f_equal. exact IH.
Qed.


End DrainFacts.

(** A recording transport ends up holding the requests of the pending
    records, in order, after those it held before. *)
Lemma attempts_recording answer pending : forall calls,
  (attempts (recording answer) pending calls).2
    = calls ++ (sync_request <$> pending).
Proof.
  induction pending as [|item rest IH]; intros calls; simpl.
  - rewrite app_nil_r. reflexivity.
  - specialize (IH (calls ++ [sync_request item])).
    destruct (attempts (recording answer) rest (calls ++ [sync_request item]))
      as [tr net2].
    simpl in *. rewrite IH, <- app_assoc. reflexivity.
Qed.

(** A key drawn from the generator goes after every key drawn before. *)
Lemma idb_insert_generated (s : ObjectStore (IDBKey * jsobj)) v :
  wf_points s ->
  idb_insert (KGen (keygen s)) v (rows s) = rows s ++ [(KGen (keygen s), v)].
Proof.
  unfold wf_points. generalize (keygen s). intros g Hwf.
  induction Hwf as [|[k w] l (n & Hk & Hn) _ IH]; simpl; [reflexivity|].
  simpl in Hk. subst k. simpl.
  destruct (g ?= n)%N eqn:E.
  - apply N.compare_eq in E. lia.
  - rewrite N.compare_lt_iff in E. lia.
  - rewrite IH. reflexivity.
Qed.

(** Whatever the keys, the new record is added and nothing else changes. *)
Lemma idb_insert_perm k v (l : list (IDBKey * jsobj)) :
  idb_insert k v l ≡ₚ (k, v) :: l.
Proof.
  induction l as [|r l IH]; simpl; [reflexivity|].
  destruct (idb_compare k r.1); try reflexivity;
    rewrite IH; apply Permutation_swap.
Qed.

(** Saving a point that has no [localId]: the generator's key, the stored
    copy stamped and carrying that key, the queue untouched. *)
Lemma saveGPSPointLocal_generated projectId (point : jsobj) now (db : DB) :
  point !! "localId" = None ->
  let data : jsobj :=
    <["timestamp" := JNum now]>
      (<["synced" := JBool false]> (<["project_id" := projectId]> point)) in
  saveGPSPointLocal projectId point now db
    = (data,
       Fulfilled
         (mkDB (mkStore (keygen (gps_points db) + 1)%N
                  (idb_insert (KGen (keygen (gps_points db)))
                     (<["localId" := JNum (JSNumber.of_N (keygen (gps_points db)))]> data)
                     (rows (gps_points db))))
               (sync_queue db))).
Proof.
  intros Hno data. unfold saveGPSPointLocal, add_by_key_path. fold data.
  assert (Hd : data !! "localId" = None).
  { subst data. rewrite !lookup_insert_ne by discriminate. exact Hno. }
  rewrite Hd. reflexivity.
Qed.

End OfflineFacts.

(** ** Statements about the queue and the reconciler *)

Module QueueClaims.
Import Offline OfflineFacts Samples.

(** C9: [addToSyncQueue(action, endpoint, data)] appends one record to the
    durable queue; the record has the six fields [id], [action] (the HTTP
    verb), [endpoint], [data] (the payload), [timestamp] (the enqueue
    time) and [attempts]; they hold the given verb, endpoint and payload,
    the time of the call, [attempts = 0], and the key drawn from the
    store's auto-increment generator, which is above every key already
    there. *)
Theorem addToSyncQueue_appends_entry action endpoint data now (db : DB) :
  wf_queue (sync_queue db) ->
  let db' := addToSyncQueue action endpoint data now db in
  exists e,
    getPendingSyncs db' = getPendingSyncs db ++ [e] /\
    sq_attempts e = 0%N /\
    sq_action e = action /\ sq_endpoint e = endpoint /\ sq_data e = data /\
    sq_timestamp e = now /\
    sq_id e = keygen (sync_queue db) /\
    keygen (sync_queue db') = (sq_id e + 1)%N /\
    Forall (fun old => (sq_id old < sq_id e)%N) (getPendingSyncs db) /\
    wf_queue (sync_queue db').
Proof.
  intros Hwf db'. eexists. split; [reflexivity|]. simpl.
  repeat (split; [reflexivity|]). split.
  - destruct Hwf as [_ Hb]. rewrite Forall_fmap in Hb. exact Hb.
  - apply wf_queue_add; [reflexivity | assumption].
Qed.

Lemma addToSyncQueue_appends_entry_witness :
  exists e,
    getPendingSyncs db_three = getPendingSyncs
      (addToSyncQueue "POST" "/api/projects/7/photo" (JObj ∅) 2000%float db_one)
      ++ [e] /\
    sq_attempts e = 0%N /\ sq_id e = 3%N.
Proof.
  destruct (addToSyncQueue_appends_entry "PUT" "/api/projects/7" (JObj ∅)
              3000%float
              (addToSyncQueue "POST" "/api/projects/7/photo" (JObj ∅)
                 2000%float db_one))
    as (e & H1 & H2 & _ & _ & _ & _ & H3 & _).
  - repeat (apply wf_queue_add; [reflexivity|]). apply wf_queue_empty.
  - exists e. repeat split; assumption.
Defined.



(** On the sample queue the first two records fail and stay, the third is
    acknowledged and leaves; the transport has been asked three times. *)
Example drain_sample_run :
  let r := syncPendingData fetch_script true db_three
             [Fulfilled resp_error; Rejected; Fulfilled resp_created] in
  sq_id <$> getPendingSyncs (ds_db r) = [1%N; 2%N] /\
  synced r = 1%N /\ failed r = 2%N /\
  sq_attempts <$> getPendingSyncs (ds_db r) = [0%N; 0%N] /\
  ds_net r = [].
Proof. vm_compute. repeat split; reflexivity. Qed.

(** C3, as stated, fails: with the link down the one queued record is
    attempted, the attempt fails, and the record in the queue still has
    [attempts = 0]. *)
Lemma attempts_not_incremented_counterexample :
  ~ attempts_incremented_on_failure fetch_down db_one tt.
Proof.
  unfold attempts_incremented_on_failure. intros H.
  destruct (H (mkSyncItem 1 "POST" "/api/projects/7/gps" (JObj well_point)
                 1000%float 0) Rejected) as (item' & Hin & _ & Hatt).
  - vm_compute. apply list_elem_of_singleton. reflexivity.
  - reflexivity.
  - vm_compute in Hin. apply list_elem_of_singleton in Hin. subst item'.
    simpl in Hatt. discriminate.
Qed.

(** C3, amended: a record whose [fetch] does not fulfil with an ok response
    is left in the queue exactly as it was (no field of it, so neither
    [attempts], is written) and adds one to the [failed] count the run
    returns, and the loop goes on: the run makes the request of every
    pending record, failed ones included, and leaves the transport as
    those requests leave it.  The outcomes spoken of are those of the
    transport's [fetch] on each record's request. *)
Theorem drain_failure_keeps_entry_and_continues {Net}
    (fetch : FetchCall -> Net -> Settled Response * Net) (db : DB) (net : Net) :
  wf_queue (sync_queue db) ->
  let r := syncPendingData fetch true db net in
  let pending := getPendingSyncs db in
  let tried := (attempts fetch pending net).1 in
  (forall item o, (item, o) ∈ tried -> acked o = false ->
     item ∈ pending /\ item ∈ getPendingSyncs (ds_db r)) /\
  (forall item', item' ∈ getPendingSyncs (ds_db r) -> item' ∈ pending) /\
  failed r = N.of_nat (length (filter (fun p => acked p.2 = false) tried)) /\
  tried.*1 = pending /\
  ds_net r = (attempts fetch pending net).2.
Proof.
  intros Hwf r pending tried.
  pose proof (syncPendingData_attempts fetch db net) as Hat.
  fold r pending in Hat.
  assert (Htr : ds_trace r = tried).
  { apply (f_equal fst) in Hat. exact Hat. }
  pose proof (wf_queue_NoDup _ Hwf) as Hnd.
  split; [|split; [|split; [|split]]].
  - intros item o Hin Hfail. rewrite <- Htr in Hin.
    subst r. unfold syncPendingData in *. simpl in *.
    destruct (sync_items_removed fetch _ _ _ _ Hnd Hin) as [Hold | [Hp Hiff]];
      [inversion Hold|]. simpl in Hiff. split; [exact Hp|].
    unfold getPendingSyncs in *. apply Hiff. split; assumption.
  - intros item' H. subst r. unfold syncPendingData in H. simpl in H.
    apply sync_items_queue_sub in H. exact H.
  - rewrite <- Htr. subst r. unfold syncPendingData. simpl.
    destruct (sync_items_counters fetch (getPendingSyncs db)
                (mkDrain 0 0 db net [])) as (tr & Htr' & _ & Hf).
    simpl in *. rewrite Htr', Hf. lia.
  - apply attempts_items.
  - apply (f_equal snd) in Hat. exact Hat.
Qed.

Lemma drain_failure_keeps_entry_and_continues_witness :
  failed (syncPendingData fetch_down true db_three tt)
    = N.of_nat (length (filter (fun p => acked p.2 = false)
                          (attempts fetch_down (getPendingSyncs db_three) tt).1)).
Proof.
  apply (drain_failure_keeps_entry_and_continues fetch_down db_three tt).
  repeat (apply wf_queue_add; [reflexivity|]). apply wf_queue_empty.
Defined.

End QueueClaims.

(** ** Overlapping runs *)

Module OverlapFacts.
Import Offline OfflineFacts Overlap Samples.

Lemma sublist_fmap_keep {A B} (f : A -> B) (l1 l2 : list A) :
  sublist l1 l2 -> sublist (f <$> l1) (f <$> l2).
Proof.
  induction 1; simpl; [constructor | apply sublist_skip | apply sublist_cons];
    assumption.
Qed.

(** Among pairwise distinct keys a given key is met at most once. *)
Lemma NoDup_key_count {A} (f : A -> N) (k : N) (l : list A) :
  NoDup (f <$> l) -> length (filter (fun x => f x = k) l) <= 1.
Proof.
  induction l as [|x l IH]; simpl; intros Hnd; [lia|].
  apply NoDup_cons in Hnd as [Hx Hnd]. rewrite filter_cons.
  destruct (decide (f x = k)) as [Hk|Hk]; simpl; [|auto].
  assert (filter (fun y => f y = k) l = []) as ->; [|simpl; lia].
  destruct (filter (fun y => f y = k) l) as [|y l'] eqn:E; [reflexivity|].
  exfalso. apply Hx.
  assert (Hy : y ∈ filter (fun y => f y = k) l) by (rewrite E; left).
  apply list_elem_of_filter in Hy as [Hfy Hy].
  rewrite Hk, <- Hfy. apply list_elem_of_fmap_2. exact Hy.
Qed.

Lemma sent_by_snoc_same i log item :
  sent_by i (log ++ [(i, item)]) = sent_by i log ++ [item].
Proof.
  unfold sent_by. rewrite filter_app, fmap_app.
  rewrite (filter_singleton_True _ _ []); [reflexivity | reflexivity].
Qed.

Lemma sent_by_snoc_other i j log item :
  i <> j -> sent_by j (log ++ [(i, item)]) = sent_by j log.
Proof.
  intros Hne. unfold sent_by. rewrite filter_app, fmap_app.
  rewrite (filter_singleton_False _ _ []); [|simpl; assumption].
  simpl. rewrite app_nil_r. reflexivity.
Qed.

Lemma sys_inv_launch n db :
  sys_inv (getPendingSyncs db) n (launch n db).
Proof.
  split; simpl.
  - reflexivity.
  - intros i t Hi. apply lookup_replicate in Hi as [-> _]. reflexivity.
  - apply length_replicate.
  - constructor.
Qed.

(** A resumption of one run changes nothing another run relies on. *)
Lemma task_step_frame rows0 i j db log t db' log' t' u :
  task_step i db log t db' log' t' -> i <> j ->
  task_inv rows0 (sent_by j log) u -> task_inv rows0 (sent_by j log') u.
Proof.
  intros Hstep Hne Hu. inversion Hstep; subst; try exact Hu.
  rewrite sent_by_snoc_other by assumption. exact Hu.
Qed.

Lemma task_step_self rows0 i db log t db' log' t' :
  task_step i db log t db' log' t' ->
  sublist (getPendingSyncs db) rows0 ->
  task_inv rows0 (sent_by i log) t ->
  task_inv rows0 (sent_by i log') t' /\ sublist (getPendingSyncs db') rows0.
Proof.
  intros Hstep Hq Ht. inversion Hstep; subst; simpl in *.
  - split; [|assumption]. rewrite Ht. apply sublist_nil_l.
  - split; [|assumption]. rewrite Ht. simpl. assumption.
  - split; [|assumption]. rewrite sent_by_snoc_same, <- app_assoc. exact Ht.
  - split; [|assumption]. rewrite app_nil_r in Ht. exact Ht.
  - split; assumption.
  - split; assumption.
  - split; [assumption|]. unfold getPendingSyncs in *. simpl.
    etransitivity; [apply sublist_filter | exact Hq].
Qed.

Lemma sys_inv_step rows0 n sys sys' :
  sys_inv rows0 n sys -> sys_step sys sys' -> sys_inv rows0 n sys'.
Proof.
  intros Hinv Hstep.
  destruct Hstep as [i t t' db log tasks db' log' Hi Hts].
  destruct Hinv as [Hq Ht Hlen Hlog]. simpl in *.
  destruct (task_step_self rows0 _ _ _ _ _ _ _ Hts Hq (Ht _ _ Hi)) as [Hi' Hq'].
  split; simpl.
  - exact Hq'.
  - intros j u Hj. destruct (decide (i = j)) as [<-|Hne].
    + rewrite list_lookup_insert_eq in Hj
        by (eapply lookup_lt_Some; exact Hi).
      injection Hj as <-. exact Hi'.
    + rewrite list_lookup_insert_ne in Hj by assumption.
      eapply task_step_frame; eauto.
  - rewrite length_insert. exact Hlen.
  - inversion Hts; subst; try exact Hlog.
    apply Forall_app; split; [exact Hlog|]. repeat constructor. simpl.
    eapply lookup_lt_Some; exact Hi.
Qed.

Lemma sys_inv_reachable n db sys :
  rtc sys_step (launch n db) sys -> sys_inv (getPendingSyncs db) n sys.
Proof.
  revert sys. apply (rtc_ind_r (sys_inv (getPendingSyncs db) n)).
  - apply sys_inv_launch.
  - intros y z _ Hstep Hy. eapply sys_inv_step; eassumption.
Qed.

(** What a run has submitted is part of the queue it started from. *)
Lemma task_inv_sent rows0 sent t :
  task_inv rows0 sent t -> sublist sent rows0.
Proof.
  destruct t; simpl; intros H; try exact H.
  - rewrite H. apply sublist_nil_l.
  - etransitivity; [|exact H]. apply sublist_inserts_r. reflexivity.
  - etransitivity; [|exact H]. apply sublist_inserts_r. reflexivity.
  - etransitivity; [|exact H]. apply sublist_inserts_r. reflexivity.
Qed.

Lemma submissions_by_sent i k log :
  submissions_by i k log = length (filter (fun e => sq_id e = k) (sent_by i log)).
Proof.
  unfold submissions_by, sent_by.
  induction (filter (fun p => p.1 = i) log) as [|p l IH]; [reflexivity|].
  rewrite fmap_cons, !filter_cons.
  destruct (decide (sq_id p.2 = k)); simpl; rewrite IH; reflexivity.
Qed.

(** With two runs every submission is by run 0 or run 1. *)
Lemma submissions_split k log :
  Forall (fun p : nat * SyncItem => p.1 < 2) log ->
  submissions k log = submissions_by 0 k log + submissions_by 1 k log.
Proof.
  unfold submissions, submissions_by. induction 1 as [|p l Hp _ IH]; [reflexivity|].
  rewrite !(filter_cons _ p). destruct p as [[|[|j]] e]; simpl in *; try lia.
  - destruct (decide (0 = 0)); [|congruence].
    destruct (decide (0 = 1)); [congruence|].
    rewrite !(filter_cons _ (0, e)). simpl.
    destruct (decide (sq_id e = k)); simpl; rewrite IH; lia.
  - destruct (decide (1 = 0)); [congruence|].
    destruct (decide (1 = 1)); [|congruence].
    rewrite !(filter_cons _ (1, e)). simpl.
    destruct (decide (sq_id e = k)); simpl; rewrite IH; lia.
Qed.

(** The sequential function is one schedule of the step system: run [i]
    taken from the loop head to its return, nothing else moving. *)
Lemma sync_items_is_a_run {Net}
    (fetch : FetchCall -> Net -> Settled Response * Net) i pending :
  forall (st : DrainState Net) log tasks,
    i < length tasks ->
    rtc sys_step
      (mkSys (ds_db st) log (<[i := TLoop pending (synced st) (failed st)]> tasks))
      (mkSys (ds_db (sync_items fetch pending st))
             (log ++ ((fun e => (i, e)) <$> pending))
             (<[i := TDone (synced (sync_items fetch pending st))
                           (failed (sync_items fetch pending st))]> tasks)).
Proof.
  induction pending as [|item rest IH]; intros st log tasks Hi; simpl.
  - rewrite app_nil_r. apply rtc_once.
    rewrite <- (list_insert_insert_eq tasks i (TDone (synced st) (failed st))
                  (TLoop [] (synced st) (failed st))).
    econstructor; [apply list_lookup_insert_eq; assumption | constructor].
  - eapply rtc_l.
    { econstructor; [apply list_lookup_insert_eq; assumption | apply step_fetch]. }
    rewrite list_insert_insert_eq.
    destruct (sync_item_cases fetch item st) as (o & net' & _ & _ & _ & Hc).
    specialize (IH (sync_item fetch item st) (log ++ [(i, item)]) tasks Hi).
    rewrite <- app_assoc in IH. simpl in IH.
    etransitivity; [|exact IH].
    destruct (acked o) eqn:Ho; destruct Hc as (-> & -> & ->).
    + eapply rtc_l.
      { econstructor; [apply list_lookup_insert_eq; assumption
                      | eapply step_acked; exact Ho]. }
      rewrite list_insert_insert_eq. apply rtc_once.
      rewrite <- (list_insert_insert_eq tasks i
                    (TLoop rest (synced st + 1)%N (failed st))
                    (TAwaitDelete item rest (synced st) (failed st))).
      econstructor; [apply list_lookup_insert_eq; assumption | constructor].
    + apply rtc_once.
      rewrite <- (list_insert_insert_eq tasks i
                    (TLoop rest (synced st) (failed st + 1)%N)
                    (TAwaitFetch item rest (synced st) (failed st))).
      econstructor; [apply list_lookup_insert_eq; assumption
                    | eapply step_failed; exact Ho].
Qed.

Lemma syncPendingData_is_a_run {Net}
    (fetch : FetchCall -> Net -> Settled Response * Net) (db : DB) (net : Net) :
  let r := syncPendingData fetch true db net in
  rtc sys_step (launch 1 db)
      (mkSys (ds_db r) ((fun e => (0, e)) <$> (ds_trace r).*1)
             [TDone (synced r) (failed r)]).
Proof.
  intros r. subst r. unfold syncPendingData, launch. simpl.
  eapply rtc_l.
  { eapply (sys_step_task 0); [reflexivity | apply step_read]. }
  rewrite sync_items_trace. simpl.
  apply (sync_items_is_a_run fetch 0 (getPendingSyncs db)
           (mkDrain 0 0 db net []) [] [TStart]).
  simpl. lia.
Qed.

(** A schedule of two runs over the one-record queue: both read the queue,
    then both send the record. *)
Lemma overlap_run_db_one : rtc sys_step (launch 2 db_one) sys_twice.
Proof.
  unfold launch, sys_twice. simpl.
  eapply rtc_l; [eapply (sys_step_task 0); [reflexivity | apply step_read]|].
  eapply rtc_l; [eapply (sys_step_task 1); [reflexivity | apply step_read]|].
  eapply rtc_l; [eapply (sys_step_task 0); [reflexivity | apply step_fetch]|].
  eapply rtc_l; [eapply (sys_step_task 1); [reflexivity | apply step_fetch]|].
  apply rtc_refl.
Qed.

(** C4, as stated, fails: nothing in [syncPendingData] keeps a second run
    from starting while a first is suspended; two runs launched together
    over a one-record queue both read the record and both submit it. *)
Lemma double_submission_counterexample : ~ no_double_submission db_one.
Proof.
  intros H. specialize (H sys_twice overlap_run_db_one 1%N).
  vm_compute in H. lia.
Qed.

(** C4, amended: there is no guard against overlapping runs; what holds is
    that each run submits a record of the queue at most once (it works
    through the snapshot it read), so that two runs launched together
    submit a record at most twice. *)
Theorem overlapping_drains_submit_once_per_run (db : DB) (sys : Sys) :
  wf_queue (sync_queue db) ->
  rtc sys_step (launch 2 db) sys ->
  forall k,
    submissions_by 0 k (sys_log sys) <= 1 /\
    submissions_by 1 k (sys_log sys) <= 1 /\
    submissions k (sys_log sys) <= 2.
Proof.
  intros Hwf Hr k. apply sys_inv_reachable in Hr as [_ Ht Hlen Hlog].
  pose proof (wf_queue_NoDup _ Hwf) as Hnd.
  assert (Hone : forall i, i < 2 -> submissions_by i k (sys_log sys) <= 1).
  { intros i Hi. rewrite submissions_by_sent.
    destruct (lookup_lt_is_Some_2 (sys_tasks sys) i) as [t Hti]; [lia|].
    apply NoDup_key_count.
    eapply sublist_NoDup; [exact Hnd|]. apply sublist_fmap_keep.
    eapply task_inv_sent. apply Ht. exact Hti. }
  pose proof (Hone 0 ltac:(lia)). pose proof (Hone 1 ltac:(lia)).
  rewrite submissions_split by exact Hlog. lia.
Qed.

Lemma overlapping_drains_submit_once_per_run_witness :
  submissions_by 0 1%N (sys_log sys_twice) <= 1 /\
  submissions_by 1 1%N (sys_log sys_twice) <= 1 /\
  submissions 1%N (sys_log sys_twice) <= 2.
Proof.
  apply (overlapping_drains_submit_once_per_run db_one sys_twice).
  - apply wf_queue_add; [reflexivity|]. apply wf_queue_empty.
  - exact overlap_run_db_one.
Defined.

End OverlapFacts.

(** ** The service worker's fetch policy *)

Module SWFacts.
Import SW Samples.

Lemma caches_lookup_app n (cs l : CacheStorage) :
  caches_lookup n (cs ++ l)
    = match caches_lookup n cs with
      | Some c => Some c
      | None => caches_lookup n l
      end.
Proof.
  induction cs as [|[m c] cs IH]; simpl; [reflexivity|].
  destruct (String.eqb m n); [reflexivity | exact IH].
Qed.

(** Opening a cache adds no entry to any cache. *)
Lemma cache_content_open n name (cs : CacheStorage) :
  cache_content n (caches_open name cs) = cache_content n cs.
Proof.
  unfold cache_content, caches_open.
  destruct (caches_lookup name cs) eqn:E; [reflexivity|].
  rewrite caches_lookup_app. destruct (caches_lookup n cs); [reflexivity|].
  simpl. destruct (String.eqb name n); reflexivity.
Qed.

(** A request that is not a GET matches in no cache. *)
Lemma cache_match_not_get (c : Cache) req :
  method req <> "GET" -> cache_match c req = None.
Proof.
  intros H. unfold cache_match.
  apply String.eqb_neq in H. rewrite H. reflexivity.
Qed.

Lemma caches_match_not_get (cs : CacheStorage) req :
  method req <> "GET" -> caches_match cs req = None.
Proof.
  intros H. induction cs as [|[n c] cs IH]; simpl; [reflexivity|].
  rewrite cache_match_not_get by assumption. exact IH.
Qed.

(** Nor is its response stored. *)
Lemma cache_content_put_not_get n name req resp (cs : CacheStorage) :
  method req <> "GET" ->
  cache_content n (caches_put name req resp cs) = cache_content n cs.
Proof.
  intros H. unfold caches_put. apply String.eqb_neq in H. rewrite H.
  apply cache_content_open.
Qed.


(** C5, as stated, fails in its last part: with the network down, a POST
    to an [/api/] path is not answered with a failure; the handler's
    [catch] answers it with the offline marker. *)
Lemma mutation_failure_not_propagated_counterexample :
  ~ mutation_policy net_down req_root [] req_post_gps.
Proof.
  unfold mutation_policy. intros H.
  destruct H as (_ & _ & _ & Hrej); [reflexivity | discriminate |].
  specialize (Hrej eq_refl). vm_compute in Hrej. discriminate.
Qed.

(** C5, amended: a request to an [/api/] path whose method is not GET is
    sent to the network, is answered with the network's response when
    there is one, and leaves the entries of every cache as they were (it
    is never answered from a cache and its response is never stored); when
    the network fails the failure is not handed on: the handler answers
    with a substitute response, the offline marker (or the tile
    placeholder when the host is a tile host), and never rejects. *)
Theorem api_mutation_passes_through_and_masks_failure
    (net : Request -> Settled Response) (root : Request)
    (cs : CacheStorage) (req : Request) :
  startsWith (pathname (url req)) "/api/" = true ->
  method req <> "GET" ->
  let r := on_fetch net root cs req in
  h_net r = [req] /\
  (forall name, cache_content name (h_caches r) = cache_content name cs) /\
  (forall resp, net req = Fulfilled resp -> respond r = Fulfilled resp) /\
  (net req = Rejected ->
     respond r = Fulfilled (if is_tile_host (hostname (url req))
                            then tile_placeholder else offline_marker)) /\
  respond r <> Rejected.
Proof.
  intros Hapi Hm r. subst r. unfold on_fetch. rewrite Hapi.
  pose proof Hm as Hm'. apply String.eqb_neq in Hm'.
  destruct (is_tile_host (hostname (url req))).
  - rewrite cache_match_not_get by assumption.
    destruct (net req) as [nr|]; simpl.
    + split; [reflexivity|]. split; [|split; [|split]]; try discriminate.
      * intros name.
        rewrite cache_content_put_not_get, cache_content_open by assumption.
        reflexivity.
      * intros resp [= ->]. reflexivity.
    + split; [reflexivity|]. split; [|split; [|split]]; try discriminate.
      * intros name. apply cache_content_open.
      * reflexivity.
  - rewrite Hm'. simpl. rewrite caches_match_not_get by assumption.
    destruct (net req) as [nr|]; simpl.
    + split; [reflexivity|]. split; [|split; [|split]]; try discriminate.
      * reflexivity.
      * intros resp [= ->]. reflexivity.
    + split; [reflexivity|]. split; [|split; [|split]]; try discriminate;
        reflexivity.
Qed.

Lemma api_mutation_passes_through_and_masks_failure_witness :
  respond (on_fetch net_down req_root [] req_post_gps) = Fulfilled offline_marker.
Proof.
  apply (api_mutation_passes_through_and_masks_failure
           net_down req_root [] req_post_gps); reflexivity || discriminate.
Defined.

(** C8: a request to a tile host is answered from the tile cache when the
    tile is there, and then nothing is sent to the network; when the tile
    is not there and the network fails, the answer is the empty
    placeholder; in no case does the handler reject. *)
Theorem tile_request_cache_first_never_rejects
    (net : Request -> Settled Response) (root : Request)
    (cs : CacheStorage) (req : Request) :
  is_tile_host (hostname (url req)) = true ->
  let r := on_fetch net root cs req in
  (forall cached, cache_match (cache_content TILE_CACHE cs) req = Some cached ->
     respond r = Fulfilled cached /\ h_net r = []) /\
  (cache_match (cache_content TILE_CACHE cs) req = None ->
   net req = Rejected ->
     respond r = Fulfilled tile_placeholder /\
     resp_body tile_placeholder = BodyText EmptyString) /\
  respond r <> Rejected.
Proof.
  intros Htile r. subst r. unfold on_fetch. rewrite Htile.
  rewrite cache_content_open.
  destruct (cache_match (cache_content TILE_CACHE cs) req) as [c|].
  - split; [|split]; try discriminate.
    intros cached [= ->]. split; reflexivity.
  - split; [discriminate|].
    destruct (net req) as [nr|]; simpl; split; try discriminate.
    intros _ _. split; reflexivity.
Qed.

Lemma tile_request_cache_first_never_rejects_witness :
  respond (on_fetch net_down req_root [] req_tile) <> Rejected.
Proof.
  apply (tile_request_cache_first_never_rejects net_down req_root [] req_tile).
  reflexivity.
Defined.

(** C10: when a request to an [/api/] path (not on a tile host) fails at
    the network and no cache holds it, the handler answers with a response
    whose body is the JSON [{ offline: true, error: 'No connection' }] and
    whose status is 200; its [ok] flag is therefore set, and the reconciler,
    which looks at [response.ok] only, takes it for an acknowledgement. *)
Theorem api_offline_marker_is_ok
    (net : Request -> Settled Response) (root : Request)
    (cs : CacheStorage) (req : Request) :
  is_tile_host (hostname (url req)) = false ->
  startsWith (pathname (url req)) "/api/" = true ->
  net req = Rejected ->
  caches_match cs req = None ->
  let r := on_fetch net root cs req in
  respond r = Fulfilled offline_marker /\
  resp_body offline_marker
    = BodyJSON (JObj {[ "offline" := JBool true;
                        "error" := JStr "No connection" ]}) /\
  resp_headers offline_marker = [("Content-Type", "application/json")] /\
  status offline_marker = 200%Z /\
  ok offline_marker = true /\
  Offline.acked (respond r) = true.
Proof.
  intros Htile Hapi Hnet Hmiss r. subst r. unfold on_fetch.
  rewrite Htile, Hapi, Hnet, Hmiss. simpl. repeat split; reflexivity.
Qed.

Lemma api_offline_marker_is_ok_witness :
  respond (on_fetch net_down req_root [] req_get_project)
    = Fulfilled offline_marker.
Proof.
  apply (api_offline_marker_is_ok net_down req_root [] req_get_project);
    reflexivity.
Defined.

End SWFacts.

(** ** What removes a record from the queue *)

Module BehindClaims.
Import Offline OfflineFacts SW SWFacts Samples Behind.





(** The two together: with [navigator.onLine] true but the server out of
    reach, the worker answers the reconciler's POST with the marker, and
    the reconciler counts the record as synced and removes it. *)
Example drain_through_worker_unreachable :
  let r := syncPendingData fetch_through_worker true db_one [] in
  getPendingSyncs (ds_db r) = [] /\
  synced r = 1%N /\ failed r = 0%N.
Proof. vm_compute. repeat split; reflexivity. Qed.

End BehindClaims.

(** ** Capturing a GPS point offline *)

Module VisitFacts.
Import Offline OfflineFacts Visit Samples.

(** The stored copy of a point saved at [now] under the generated key [g],
    and the database after that save. *)
Local Abbreviation stored pid point now g :=
  (<["localId" := JNum (JSNumber.of_N g)]>
     (<["timestamp" := JNum now]>
        (<["synced" := JBool false]> (<["project_id" := pid]> point))) : jsobj).

Local Abbreviation db_saved pid point now d :=
  (mkDB (mkStore (N.add (keygen (gps_points d)) 1%N)
           (idb_insert (KGen (keygen (gps_points d)))
              (stored pid point now (keygen (gps_points d)))
              (rows (gps_points d))))
        (sync_queue d)).

Section CaptureFacts.
Variable Math_round : float -> float.
Variable ToString : jsval -> string.

(** A captured point has no [localId]. *)
Lemma make_point_no_localId label lat lon g type iso :
  make_point Math_round label lat lon g type iso !! "localId" = None.
Proof. unfold make_point. simplify_map_eq. reflexivity. Qed.


(** Saving and queueing a point without [localId] never throws. *)
Lemma save_and_queue_generated (point : jsobj) nowL nowQ (p : Page) :
  point !! "localId" = None ->
  save_and_queue ToString point nowL nowQ p
    = Some (mkPage (projectId p) (gps_points_mem p) (currentGPS p)
              (pendingGPSLabel p)
              (addToSyncQueue "POST" (gps_endpoint ToString (projectId p))
                 (JObj point) nowQ (db_saved (projectId p) point nowL (db p)))
              (sent p)).
Proof.
  intros Hno. unfold save_and_queue.
  rewrite (saveGPSPointLocal_generated _ _ _ _ Hno). reflexivity.
Qed.

(** The capture, path by path.  Offline with [projectData] loaded: *)
Lemma saveGPSPoint_offline_loaded label lat lon iso server now1 now2 now3 now4
    (p : Page) mem :
  label <> EmptyString ->
  PrimFloat.is_nan lat = false -> PrimFloat.is_nan lon = false ->
  gps_points_mem p = Some mem ->
  let point := make_point Math_round label lat lon (currentGPS p)
                 (pendingGPSLabel p) iso in
  saveGPSPoint Math_round ToString label lat lon iso false server
    now1 now2 now3 now4 p
  = (mkPage (projectId p) (Some (mem ++ [point])) (currentGPS p) JNull
       (addToSyncQueue "POST" (gps_endpoint ToString (projectId p))
          (JObj point) now2 (db_saved (projectId p) point now1 (db p)))
       (sent p), true).
Proof.
  intros Hl Hlat Hlon Hmem point. unfold saveGPSPoint.
  apply String.eqb_neq in Hl. rewrite Hl, Hlat, Hlon. cbn [orb]. fold point.
  rewrite save_and_queue_generated by apply make_point_no_localId.
  unfold finish_capture, push_point. cbn [gps_points_mem]. rewrite Hmem.
  reflexivity.
Qed.

(** Offline with [projectData] null: the push throws, the [catch] block
    saves and queues again, its push throws too. *)
Lemma saveGPSPoint_offline_unloaded label lat lon iso server now1 now2 now3 now4
    (p : Page) :
  label <> EmptyString ->
  PrimFloat.is_nan lat = false -> PrimFloat.is_nan lon = false ->
  gps_points_mem p = None ->
  let point := make_point Math_round label lat lon (currentGPS p)
                 (pendingGPSLabel p) iso in
  let db1 := addToSyncQueue "POST" (gps_endpoint ToString (projectId p))
               (JObj point) now2 (db_saved (projectId p) point now1 (db p)) in
  saveGPSPoint Math_round ToString label lat lon iso false server
    now1 now2 now3 now4 p
  = (mkPage (projectId p) None (currentGPS p) (pendingGPSLabel p)
       (addToSyncQueue "POST" (gps_endpoint ToString (projectId p))
          (JObj point) now4 (db_saved (projectId p) point now3 db1))
       (sent p), false).
Proof.
  intros Hl Hlat Hlon Hmem point db1. unfold saveGPSPoint.
  apply String.eqb_neq in Hl. rewrite Hl, Hlat, Hlon. cbn [orb]. fold point.
  rewrite save_and_queue_generated by apply make_point_no_localId.
  unfold finish_capture, push_point, capture_fallback.
  cbn [gps_points_mem]. rewrite Hmem. cbn [fmap option_fmap option_map].
  rewrite save_and_queue_generated by apply make_point_no_localId.
  unfold finish_capture, push_point. cbn [gps_points_mem projectId db
    currentGPS pendingGPSLabel sent]. try rewrite Hmem. reflexivity.
Qed.

(** Online: the POST is sent; when it settles with a response and
    [projectData] is loaded, nothing else happens. *)
Lemma saveGPSPoint_online_answered label lat lon iso resp now1 now2 now3 now4
    (p : Page) mem :
  label <> EmptyString ->
  PrimFloat.is_nan lat = false -> PrimFloat.is_nan lon = false ->
  gps_points_mem p = Some mem ->
  let point := make_point Math_round label lat lon (currentGPS p)
                 (pendingGPSLabel p) iso in
  let call := mkFetchCall (gps_endpoint ToString (projectId p)) "POST"
                [("Content-Type", "application/json")] (JObj point) in
  saveGPSPoint Math_round ToString label lat lon iso true (Fulfilled resp)
    now1 now2 now3 now4 p
  = (mkPage (projectId p) (Some (mem ++ [point])) (currentGPS p) JNull (db p)
       (sent p ++ [call]), true).
Proof.
  intros Hl Hlat Hlon Hmem point call. unfold saveGPSPoint.
  apply String.eqb_neq in Hl. rewrite Hl, Hlat, Hlon. cbn [orb]. fold point.
  unfold finish_capture, push_point. cbn [gps_points_mem]. rewrite Hmem.
  reflexivity.
Qed.

(** Online, the POST fails, [projectData] loaded: the [catch] block saves,
    queues and appends. *)
Lemma saveGPSPoint_online_failed label lat lon iso now1 now2 now3 now4
    (p : Page) mem :
  label <> EmptyString ->
  PrimFloat.is_nan lat = false -> PrimFloat.is_nan lon = false ->
  gps_points_mem p = Some mem ->
  let point := make_point Math_round label lat lon (currentGPS p)
                 (pendingGPSLabel p) iso in
  let call := mkFetchCall (gps_endpoint ToString (projectId p)) "POST"
                [("Content-Type", "application/json")] (JObj point) in
  saveGPSPoint Math_round ToString label lat lon iso true Rejected
    now1 now2 now3 now4 p
  = (mkPage (projectId p) (Some (mem ++ [point])) (currentGPS p) JNull
       (addToSyncQueue "POST" (gps_endpoint ToString (projectId p))
          (JObj point) now4 (db_saved (projectId p) point now3 (db p)))
       (sent p ++ [call]), true).
Proof.
  intros Hl Hlat Hlon Hmem point call. unfold saveGPSPoint.
  apply String.eqb_neq in Hl. rewrite Hl, Hlat, Hlon. cbn [orb]. fold point.
  unfold capture_fallback.
  rewrite save_and_queue_generated by apply make_point_no_localId.
  unfold finish_capture, push_point. cbn [gps_points_mem projectId db
    currentGPS pendingGPSLabel sent]. try rewrite Hmem. reflexivity.
Qed.

(** Online with [projectData] null: whether the POST settles or fails, the
    [catch] block saves and queues once, then its push throws. *)
Lemma saveGPSPoint_online_unloaded label lat lon iso server now1 now2 now3 now4
    (p : Page) :
  label <> EmptyString ->
  PrimFloat.is_nan lat = false -> PrimFloat.is_nan lon = false ->
  gps_points_mem p = None ->
  let point := make_point Math_round label lat lon (currentGPS p)
                 (pendingGPSLabel p) iso in
  let call := mkFetchCall (gps_endpoint ToString (projectId p)) "POST"
                [("Content-Type", "application/json")] (JObj point) in
  saveGPSPoint Math_round ToString label lat lon iso true server
    now1 now2 now3 now4 p
  = (mkPage (projectId p) None (currentGPS p) (pendingGPSLabel p)
       (addToSyncQueue "POST" (gps_endpoint ToString (projectId p))
          (JObj point) now4 (db_saved (projectId p) point now3 (db p)))
       (sent p ++ [call]), false).
Proof.
  intros Hl Hlat Hlon Hmem point call. unfold saveGPSPoint.
  apply String.eqb_neq in Hl. rewrite Hl, Hlat, Hlon. cbn [orb]. fold point.
  assert (Hfb : capture_fallback ToString point now3 now4
                  (mkPage (projectId p) None (currentGPS p)
                     (pendingGPSLabel p) (db p) (sent p ++ [call]))
                = (mkPage (projectId p) None (currentGPS p) (pendingGPSLabel p)
                     (addToSyncQueue "POST" (gps_endpoint ToString (projectId p))
                        (JObj point) now4
                        (db_saved (projectId p) point now3 (db p)))
                     (sent p ++ [call]), false)).
  { unfold capture_fallback.
    rewrite save_and_queue_generated by apply make_point_no_localId.
    unfold finish_capture, push_point. cbn [gps_points_mem projectId db
      currentGPS pendingGPSLabel sent]. try rewrite Hmem. reflexivity. }
  destruct server as [resp|]; unfold finish_capture, push_point;
    cbn [gps_points_mem]; rewrite Hmem; exact Hfb.
Qed.
End CaptureFacts.





(** The same capture on the page whose project never loaded: two local
    records, two queue entries, nothing in memory, and a rejection. *)
Example capture_on_unloaded_page :
  let r := saveGPSPoint no_round show_7 "Well" 39.125%float (-104.875)%float
             "2024-05-01T10:00:00.000Z" false Rejected
             1714557600123%float 1714557600125%float
             1714557600127%float 1714557600129%float page_7_unloaded in
  r.2 = false /\
  gps_points_mem r.1 = None /\
  (rows (gps_points (db r.1))).*1 = [KGen 1; KGen 2] /\
  sq_id <$> getPendingSyncs (db r.1) = [1%N; 2%N].
Proof. vm_compute. repeat split; reflexivity. Qed.

End VisitFacts.

(** ** The tile prefetcher *)

Module LoopFacts.
Import JSNumber.

Lemma counter_add a b i : counter (a + b) i = counter b (counter a i).
Proof.
  revert i. induction a as [|a IH]; intros i; simpl; [reflexivity|]. apply IH.
Qed.

Lemma counter_succ k i : counter (S k) i = (counter k i + 1)%float.
Proof.
  replace (S k) with (k + 1) by lia. rewrite counter_add. reflexivity.
Qed.

Section Loop.
Context {A : Type}.
Variable hi : float.
Variable body : float -> option (list A).


Lemma loops_for_upto i l :
  loops hi body i l ->
  exists fuel, forall fuel', fuel <= fuel' -> for_upto fuel' i hi body = Some l.
Proof.
  induction 1 as [i Ht | i out rest Ht Hb _ (fuel & IH)].
  - exists 1. intros [|f] Hf; [lia|]. simpl. rewrite Ht. reflexivity.
  - exists (S fuel). intros [|f] Hf; [lia|]. simpl.
    rewrite Ht, Hb, IH by lia. reflexivity.
Qed.






End Loop.





End LoopFacts.

Module TileFacts.
Import JSNumber LoopFacts SW Samples.

Section Tiles.
Variables Math_log Math_tan Math_cos : float -> float.
Variable Math_pow : float -> float -> float.
Variable Number_toString : float -> string.

Local Abbreviation corner := (latLngToTile Math_log Math_tan Math_cos Math_pow).










End Tiles.




(** The sample box, with the stand-ins: four tiles at zoom 14, thirteen
    over zooms 14 and 15; and the column of a longitude just west of the
    meridian, which rounding puts on the meridian's own tile. *)
Example getTileUrls_sample :
  tile_visits log_standin tan_standin cos_standin pow_standin 3 box_small 14
    = Some [(14, 3413, 6416); (14, 3413, 6417);
            (14, 3414, 6416); (14, 3414, 6417)]%float /\
  length <$> getTileUrls log_standin tan_standin cos_standin pow_standin
               show_index 9 box_small 15 = Some 13 /\
  tile_x (latLngToTile log_standin tan_standin cos_standin pow_standin
            0 (- Z.ldexp 1 (-70)) 14) = 8192%float.
Proof. repeat split; vm_compute; reflexivity. Qed.

End TileFacts.

(* ===================================================================== *)
(** * Part III: further properties of the modelled code *)
(* ===================================================================== *)

(** ** The reconciler: what a run leaves behind *)

Module QueueMore.
Import Offline OfflineFacts Samples.

Lemma filter_key_absent (k : N) (l : list SyncItem) :
  k ∉ sq_id <$> l -> filter (fun r => sq_id r <> k) l = l.
Proof.
  induction l as [|x l IH]; intros Hk; [reflexivity|].
  rewrite fmap_cons in Hk. apply not_elem_of_cons in Hk as [Hx Hl].
  rewrite filter_cons. destruct (decide (sq_id x <> k)) as [_|Hn].
  - rewrite IH by assumption. reflexivity.
  - exfalso. apply Hn. congruence.
Qed.

Section Shape.
Context {Net : Type}.
Variable fetch : FetchCall -> Net -> Settled Response * Net.

(** The loop, started on a queue that ends with the pending records, ends
    on the same queue with the acknowledged ones taken out. *)
Lemma sync_items_queue_shape pending : forall (st : DrainState Net) kept,
  rows (sync_queue (ds_db st)) = kept ++ pending ->
  NoDup (sq_id <$> (kept ++ pending)) ->
  exists tr,
    ds_trace (sync_items fetch pending st) = ds_trace st ++ tr /\
    tr.*1 = pending /\
    rows (sync_queue (ds_db (sync_items fetch pending st)))
      = kept ++ (filter (fun p => acked p.2 = false) tr).*1 /\
    keygen (sync_queue (ds_db (sync_items fetch pending st)))
      = keygen (sync_queue (ds_db st)) /\
    gps_points (ds_db (sync_items fetch pending st)) = gps_points (ds_db st).
Proof.
  induction pending as [|item rest IH]; intros st kept Hq Hnd; simpl.
  - exists []. rewrite !app_nil_r. rewrite app_nil_r in Hq. auto.
  - destruct (sync_item_cases fetch item st) as (o & net' & _ & Htr & _ & Hc).
    rewrite fmap_app in Hnd. apply NoDup_app in Hnd as (Hk & Hdisj & Hp).
    rewrite fmap_cons in Hp. apply NoDup_cons in Hp as [Hfresh Hrest].
    destruct (acked o) eqn:Ho.
    + destruct Hc as (Hdb & _).
      destruct (IH (sync_item fetch item st) kept) as (tr & H1 & H2 & H3 & H4 & H5).
      * rewrite Hdb. simpl. rewrite Hq, filter_app, filter_cons.
        destruct (decide (sq_id item <> sq_id item)) as [Hn|_]; [congruence|].
        rewrite !filter_key_absent; [reflexivity | assumption |].
        intros Hin. apply (Hdisj _ Hin). rewrite fmap_cons. left.
      * rewrite fmap_app. apply NoDup_app. split; [assumption|].
        split; [|assumption]. intros x Hx Hx'. apply (Hdisj _ Hx).
        rewrite fmap_cons. right. assumption.
      * exists ((item, o) :: tr). rewrite H1, Htr, <- app_assoc. simpl.
        split; [reflexivity|]. split; [f_equal; exact H2|].
        rewrite filter_cons. simpl.
        destruct (decide (acked o = false)) as [Hf|_]; [congruence|].
        rewrite H3, H4, H5, Hdb. auto.
    + destruct Hc as (Hdb & _).
      destruct (IH (sync_item fetch item st) (kept ++ [item]))
        as (tr & H1 & H2 & H3 & H4 & H5).
      * rewrite Hdb, Hq, <- app_assoc. reflexivity.
      * rewrite <- app_assoc. simpl. rewrite fmap_app, fmap_cons.
        apply NoDup_app. split; [assumption|].
        split; [exact Hdisj|]. apply NoDup_cons. split; assumption.
      * exists ((item, o) :: tr). rewrite H1, Htr, <- app_assoc. simpl.
        split; [reflexivity|]. split; [f_equal; exact H2|].
        rewrite filter_cons. simpl.
        destruct (decide (acked o = false)) as [_|Hf]; [|congruence].
        rewrite H3, H4, H5, Hdb, <- app_assoc. auto.
Qed.
(** The key invariant survives the loop. *)
Lemma sync_items_wf pending : forall (st : DrainState Net),
  wf_queue (sync_queue (ds_db st)) ->
  wf_queue (sync_queue (ds_db (sync_items fetch pending st))).
Proof.
  induction pending as [|item rest IH]; intros st Hwf; simpl; [exact Hwf|].
  apply IH.
  destruct (sync_item_cases fetch item st) as (o & net' & _ & _ & _ & Hc).
  destruct (acked o); destruct Hc as (-> & _); [|exact Hwf].
  simpl. apply wf_queue_delete. exact Hwf.
Qed.
End Shape.

Lemma wf_three : wf_queue (sync_queue db_three).
Proof. repeat (apply wf_queue_add; [reflexivity|]). apply wf_queue_empty. Qed.

(** X1: after an online run the queue holds exactly the records whose
    [fetch] did not fulfil with an ok response, in their original order
    (the outcomes being those of the transport's [fetch] on each pending
    record's request, in turn); so the next online run makes the requests
    of those records, and only those, again. *)
Theorem drain_leaves_failed_in_order {Net Net2}
    (fetch : FetchCall -> Net -> Settled Response * Net)
    (fetch2 : FetchCall -> Net2 -> Settled Response * Net2)
    (db : DB) (net : Net) (net2 : Net2) :
  wf_queue (sync_queue db) ->
  let r := syncPendingData fetch true db net in
  let failed_items :=
    (filter (fun p => acked p.2 = false)
            (attempts fetch (getPendingSyncs db) net).1).*1 in
  let r2 := syncPendingData fetch2 true (ds_db r) net2 in
  getPendingSyncs (ds_db r) = failed_items /\
  (ds_trace r2, ds_net r2) = attempts fetch2 failed_items net2 /\
  (attempts fetch2 failed_items net2).1.*1 = failed_items /\
  (forall answer,
     ds_net (syncPendingData (recording answer) true (ds_db r) [])
       = sync_request <$> failed_items).
Proof.
  intros Hwf r failed_items r2.
  assert (H : getPendingSyncs (ds_db r) = failed_items).
  { subst r failed_items.
    pose proof (syncPendingData_attempts fetch db net) as Hat.
    apply (f_equal fst) in Hat. cbn [fst] in Hat. rewrite <- Hat.
    unfold syncPendingData, getPendingSyncs. simpl.
    destruct (sync_items_queue_shape fetch (rows (sync_queue db))
                (mkDrain 0 0 db net []) [])
      as (tr & Htr & _ & Hq & _); [reflexivity | |].
    - simpl. apply wf_queue_NoDup. exact Hwf.
    - simpl in Htr. rewrite Htr. exact Hq. }
  split; [exact H|]. rewrite <- H.
  split; [apply syncPendingData_attempts|].
  split; [apply attempts_items|].
  intros answer.
  pose proof (syncPendingData_attempts (recording answer) (ds_db r) []) as Hat.
  apply (f_equal snd) in Hat. cbn [snd] in Hat. rewrite Hat.
  apply (attempts_recording answer _ []).
Qed.

Lemma drain_leaves_failed_in_order_witness :
  sq_id <$> getPendingSyncs
     (ds_db (syncPendingData fetch_script true db_three
               [Fulfilled resp_error; Fulfilled resp_created; Rejected]))
  = [1%N; 3%N].
Proof.
  rewrite (proj1 (drain_leaves_failed_in_order fetch_script fetch_down db_three
                    [Fulfilled resp_error; Fulfilled resp_created; Rejected]
                    tt wf_three)).
  vm_compute. reflexivity.
Defined.

(** X2: for an online run the two counters it returns add up to the
    number of pending records, and the pending count afterwards
    ([getUnsyncedCount]) is the [failed] count: what was pending is either
    synced and gone or failed and still there.  A run that finds the page
    offline returns 0 and 0 and touches neither the queue nor the
    transport.  In both cases the pending count does not grow. *)
Theorem drain_counts_balance {Net}
    (fetch : FetchCall -> Net -> Settled Response * Net)
    (online : bool) (db : DB) (net : Net) :
  wf_queue (sync_queue db) ->
  let r := syncPendingData fetch online db net in
  (if online
   then (synced r + failed r)%N = N.of_nat (getUnsyncedCount db) /\
        N.of_nat (getUnsyncedCount (ds_db r)) = failed r /\
        failed r = N.of_nat (length (filter (fun p => acked p.2 = false)
                               (attempts fetch (getPendingSyncs db) net).1))
   else synced r = 0%N /\ failed r = 0%N /\ ds_db r = db /\ ds_net r = net) /\
  getUnsyncedCount (ds_db r) <= getUnsyncedCount db.
Proof.
  intros Hwf r. subst r. destruct online; [|simpl; auto].
  pose proof (syncPendingData_attempts fetch db net) as Hat.
  apply (f_equal fst) in Hat. cbn [fst] in Hat. rewrite <- Hat.
  unfold syncPendingData, getUnsyncedCount, getPendingSyncs.
  simpl.
  destruct (sync_items_queue_shape fetch (rows (sync_queue db))
              (mkDrain 0 0 db net []) [])
    as (tr & Htr & Hall & Hq & _); [reflexivity | |].
  { simpl. apply wf_queue_NoDup. exact Hwf. }
  destruct (sync_items_counters fetch (rows (sync_queue db))
              (mkDrain 0 0 db net [])) as (tr' & Htr' & Hs & Hf).
  simpl in *. rewrite Htr' in Htr. subst tr'.
  rewrite Hq, Hs, Hf, Htr', length_fmap, <- Hall, length_fmap.
  assert (Hlen : length (filter (fun p : SyncItem * Settled Response =>
                                   acked p.2 = true) tr)
                 + length (filter (fun p => acked p.2 = false) tr)
                 = length tr).
  { clear. induction tr as [|p tr IH]; [reflexivity|].
    rewrite !filter_cons. destruct (acked p.2);
      repeat case_decide; try congruence; simpl; lia. }
  split; [|lia]. split; [lia|]. split; lia.
Qed.

Lemma drain_counts_balance_witness :
  N.of_nat (getUnsyncedCount
              (ds_db (syncPendingData fetch_down true db_three tt)))
  = failed (syncPendingData fetch_down true db_three tt).
Proof.
  apply (drain_counts_balance fetch_down true db_three tt). exact wf_three.
Defined.

(** X3: a run writes nothing but deletions from the queue: the local
    GPS-point store is as it was (no record is marked synced or removed),
    the key generator is as it was, and the key invariant still holds; so
    a record enqueued afterwards gets a key above every key the queue held
    before the run, also the keys of records the run removed. *)
Theorem drain_keeps_points_and_keys {Net}
    (fetch : FetchCall -> Net -> Settled Response * Net) (db : DB) (net : Net)
    (action endpoint : string) (data : jsval) (now : float) :
  wf_queue (sync_queue db) ->
  let r := syncPendingData fetch true db net in
  gps_points (ds_db r) = gps_points db /\
  keygen (sync_queue (ds_db r)) = keygen (sync_queue db) /\
  wf_queue (sync_queue (ds_db r)) /\
  exists item,
    getPendingSyncs (addToSyncQueue action endpoint data now (ds_db r))
      = getPendingSyncs (ds_db r) ++ [item] /\
    Forall (fun old => (sq_id old < sq_id item)%N) (getPendingSyncs db).
Proof.
  intros Hwf r. subst r. unfold syncPendingData. simpl.
  destruct (sync_items_queue_shape fetch (rows (sync_queue db))
              (mkDrain 0 0 db net []) [])
    as (tr & Htr & Hall & Hq & Hk & Hg); [reflexivity | |].
  { simpl. apply wf_queue_NoDup. exact Hwf. }
  simpl in *. unfold getPendingSyncs.
  split; [exact Hg|]. split; [exact Hk|]. split.
  - apply sync_items_wf. exact Hwf.
  - eexists. split; [reflexivity|]. simpl. rewrite Hk.
    destruct Hwf as [_ Hb]. rewrite Forall_fmap in Hb. exact Hb.
Qed.

Lemma drain_keeps_points_and_keys_witness :
  gps_points (ds_db (syncPendingData fetch_script true db_three
                       [Fulfilled resp_created]))
  = gps_points db_three.
Proof.
  apply (drain_keeps_points_and_keys fetch_script db_three
           [Fulfilled resp_created] "PUT" "/api/projects/7" JNull 4000%float).
  exact wf_three.
Defined.

End QueueMore.

(** ** Capturing a GPS point: every path *)

Module VisitMore.
Import Offline OfflineFacts Visit VisitFacts Samples.

Lemma idb_insert_length k v (l : list (IDBKey * jsobj)) :
  length (idb_insert k v l) = S (length l).
Proof. rewrite idb_insert_perm. reflexivity. Qed.

(** X4: a capture that passes the form check sends the POST exactly when
    the page is online.  On a page whose [projectData] is loaded it
    completes, the point ends in [projectData.gps_points] and the modal is
    closed; if the page is online and the POST settles with a response,
    whatever its status, nothing is saved locally or queued; if the page
    is offline or the POST fails, the point is saved locally once and one
    POST for the project's GPS endpoint, carrying the point, is appended
    to the queue.  On a page whose [projectData] is [null] the function
    rejects, appends nothing and leaves the modal open, after saving the
    point locally and queueing its POST once when online (whether or not
    the POST settled) and twice when offline. *)
Theorem saveGPSPoint_sends_or_queues
    (Math_round : float -> float) (ToString : jsval -> string)
    (label : string) (lat lon : float) (iso : string)
    (online : bool) (server : Settled Response) (now1 now2 now3 now4 : float)
    (p : Page) :
  label <> EmptyString ->
  PrimFloat.is_nan lat = false ->
  PrimFloat.is_nan lon = false ->
  let point := make_point Math_round label lat lon (currentGPS p)
                 (pendingGPSLabel p) iso in
  let call := mkFetchCall (gps_endpoint ToString (projectId p)) "POST"
                [("Content-Type", "application/json")] (JObj point) in
  let r := saveGPSPoint Math_round ToString label lat lon iso online server
             now1 now2 now3 now4 p in
  sent r.1 = (if online then sent p ++ [call] else sent p) /\
  (forall mem, gps_points_mem p = Some mem ->
     r.2 = true /\
     gps_points_mem r.1 = Some (mem ++ [point]) /\
     pendingGPSLabel r.1 = JNull /\
     (forall resp, online = true -> server = Fulfilled resp -> db r.1 = db p) /\
     (online = false \/ server = Rejected ->
        exists item,
          getPendingSyncs (db r.1) = getPendingSyncs (db p) ++ [item] /\
          sync_request item = call /\
          length (rows (gps_points (db r.1)))
            = S (length (rows (gps_points (db p)))))) /\
  (gps_points_mem p = None ->
     r.2 = false /\
     gps_points_mem r.1 = None /\
     pendingGPSLabel r.1 = pendingGPSLabel p /\
     exists items,
       getPendingSyncs (db r.1) = getPendingSyncs (db p) ++ items /\
       Forall (fun item => sync_request item = call) items /\
       length items = (if online then 1 else 2) /\
       length (rows (gps_points (db r.1)))
         = length items + length (rows (gps_points (db p)))).
Proof.
  intros Hl Hlat Hlon point call r. split; [|split].
  - subst r. destruct (gps_points_mem p) as [mem|] eqn:Hmem.
    + destruct online; [destruct server as [resp|]|].
      * rewrite (saveGPSPoint_online_answered Math_round ToString label lat lon
                   iso resp now1 now2 now3 now4 p mem Hl Hlat Hlon Hmem).
        reflexivity.
      * rewrite (saveGPSPoint_online_failed Math_round ToString label lat lon
                   iso now1 now2 now3 now4 p mem Hl Hlat Hlon Hmem).
        reflexivity.
      * rewrite (saveGPSPoint_offline_loaded Math_round ToString label lat lon
                   iso server now1 now2 now3 now4 p mem Hl Hlat Hlon Hmem).
        reflexivity.
    + destruct online.
      * rewrite (saveGPSPoint_online_unloaded Math_round ToString label lat lon
                   iso server now1 now2 now3 now4 p Hl Hlat Hlon Hmem).
        reflexivity.
      * rewrite (saveGPSPoint_offline_unloaded Math_round ToString label lat lon
                   iso server now1 now2 now3 now4 p Hl Hlat Hlon Hmem).
        reflexivity.
  - intros mem Hmem. subst r.
    destruct online; [destruct server as [resp|]|].
    + rewrite (saveGPSPoint_online_answered Math_round ToString label lat lon
                 iso resp now1 now2 now3 now4 p mem Hl Hlat Hlon Hmem).
      cbn [fst snd db gps_points_mem pendingGPSLabel].
      repeat split; try reflexivity. intros [H|H]; discriminate.
    + rewrite (saveGPSPoint_online_failed Math_round ToString label lat lon
                 iso now1 now2 now3 now4 p mem Hl Hlat Hlon Hmem).
      cbn [fst snd db gps_points_mem pendingGPSLabel].
      repeat split; try reflexivity; try discriminate.
      intros _. eexists. split; [reflexivity|]. split; [reflexivity|].
      cbn. apply idb_insert_length.
    + rewrite (saveGPSPoint_offline_loaded Math_round ToString label lat lon
                 iso server now1 now2 now3 now4 p mem Hl Hlat Hlon Hmem).
      cbn [fst snd db gps_points_mem pendingGPSLabel].
      repeat split; try reflexivity; try discriminate.
      intros _. eexists. split; [reflexivity|]. split; [reflexivity|].
      cbn. apply idb_insert_length.
  - intros Hmem. subst r. destruct online.
    + rewrite (saveGPSPoint_online_unloaded Math_round ToString label lat lon
                 iso server now1 now2 now3 now4 p Hl Hlat Hlon Hmem).
      cbn [fst snd db gps_points_mem pendingGPSLabel].
      repeat split; try reflexivity.
      eexists [_]. split; [reflexivity|].
      split; [repeat constructor|]. split; [reflexivity|].
      cbn. apply idb_insert_length.
    + rewrite (saveGPSPoint_offline_unloaded Math_round ToString label lat lon
                 iso server now1 now2 now3 now4 p Hl Hlat Hlon Hmem).
      cbn [fst snd db gps_points_mem pendingGPSLabel].
      repeat split; try reflexivity.
      eexists [_; _]. split.
      { unfold getPendingSyncs. cbn. rewrite <- app_assoc. reflexivity. }
      split; [repeat constructor|]. split; [reflexivity|].
      cbn. rewrite !idb_insert_length. reflexivity.
Qed.

Lemma saveGPSPoint_sends_or_queues_witness :
  db (saveGPSPoint no_round show_7 "Well" 39.125%float (-104.875)%float
        "2024-05-01T10:00:00.000Z" true (Fulfilled resp_error)
        1714557600123%float 1714557600125%float
        1714557600127%float 1714557600129%float page_7).1
  = db page_7.
Proof.
  destruct (saveGPSPoint_sends_or_queues no_round show_7 "Well" 39.125%float
              (-104.875)%float "2024-05-01T10:00:00.000Z" true
              (Fulfilled resp_error) 1714557600123%float 1714557600125%float
              1714557600127%float 1714557600129%float page_7)
    as (_ & Hloaded & _); [discriminate | reflexivity | reflexivity |].
  destruct (Hloaded [] eq_refl) as (_ & _ & _ & H & _).
  apply (H resp_error); reflexivity.
Defined.

(** X5: capture one point offline on a page whose [projectData] is loaded
    and whose queue is empty, then reconnect to a server that accepts the
    request: the pending count goes from 0 to 1 and back to 0, and the run
    makes exactly one request of the transport, the POST of that point to
    the project's GPS endpoint. *)
Theorem capture_offline_then_drain {Net}
    (fetch : FetchCall -> Net -> Settled Response * Net) (net net' : Net)
    (resp : Response)
    (Math_round : float -> float) (ToString : jsval -> string)
    (label : string) (lat lon : float) (iso : string)
    (now1 now2 now3 now4 : float) (p : Page) (mem : list jsobj) :
  label <> EmptyString ->
  PrimFloat.is_nan lat = false ->
  PrimFloat.is_nan lon = false ->
  gps_points_mem p = Some mem ->
  getPendingSyncs (db p) = [] ->
  let point := make_point Math_round label lat lon (currentGPS p)
                 (pendingGPSLabel p) iso in
  let call := mkFetchCall (gps_endpoint ToString (projectId p)) "POST"
                [("Content-Type", "application/json")] (JObj point) in
  fetch call net = (Fulfilled resp, net') ->
  ok resp = true ->
  let p' := (saveGPSPoint Math_round ToString label lat lon iso false Rejected
               now1 now2 now3 now4 p).1 in
  let r := syncPendingData fetch true (db p') net in
  getUnsyncedCount (db p') = 1 /\
  getUnsyncedCount (ds_db r) = 0 /\
  (exists item,
     getPendingSyncs (db p') = [item] /\ sync_request item = call /\
     attempts fetch (getPendingSyncs (db p')) net
       = ([(item, Fulfilled resp)], net')) /\
  ds_net r = net' /\
  (forall answer,
     ds_net (syncPendingData (recording answer) true (db p') []) = [call]) /\
  synced r = 1%N /\ failed r = 0%N /\
  gps_points_mem p' = Some (mem ++ [point]).
Proof.
  intros Hl Hlat Hlon Hmem Hq point call Hfetch Hok p' r. subst r p'.
  rewrite (saveGPSPoint_offline_loaded Math_round ToString label lat lon iso
             Rejected now1 now2 now3 now4 p mem Hl Hlat Hlon Hmem).
  fold point. cbn [fst db gps_points_mem].
  set (d := addToSyncQueue "POST" (gps_endpoint ToString (projectId p))
              (JObj point) now2 _).
  set (item := mkSyncItem (keygen (sync_queue (db p))) "POST"
                 (gps_endpoint ToString (projectId p)) (JObj point) now2 0).
  assert (Hp : getPendingSyncs d = [item]).
  { subst d item. unfold getPendingSyncs in *. cbn. rewrite Hq. reflexivity. }
  assert (Hreq : sync_request item = call) by reflexivity.
  assert (Hrun : syncPendingData fetch true d net
                 = mkDrain 1 0 (removeFromSyncQueue (sq_id item) d) net'
                     [(item, Fulfilled resp)]).
  { unfold syncPendingData. cbn [negb]. rewrite Hp. cbn [sync_items].
    unfold sync_item. cbn [ds_net]. rewrite Hreq, Hfetch, Hok. reflexivity. }
  rewrite Hrun. cbn [ds_db ds_net synced failed]. unfold getUnsyncedCount.
  rewrite Hp.
  split; [reflexivity|]. split.
  { unfold getPendingSyncs, removeFromSyncQueue.
    cbn [sync_queue store_delete rows]. fold (getPendingSyncs d). rewrite Hp.
    rewrite (filter_singleton_False _ _ []) by (simpl; tauto). reflexivity. }
  split.
  { exists item. split; [reflexivity|]. split; [exact Hreq|].
    cbn [attempts]. rewrite Hreq, Hfetch. reflexivity. }
  split; [reflexivity|]. split.
  { intros answer.
    pose proof (syncPendingData_attempts (recording answer) d []) as Hat.
    apply (f_equal snd) in Hat. cbn [snd] in Hat. rewrite Hat.
    rewrite (attempts_recording answer _ []), Hp. reflexivity. }
  repeat split; reflexivity.
Qed.

Lemma capture_offline_then_drain_witness :
  getUnsyncedCount
    (ds_db (syncPendingData fetch_script true
              (db (saveGPSPoint no_round show_7 "Well" 39.125%float
                     (-104.875)%float "2024-05-01T10:00:00.000Z" false Rejected
                     1714557600123%float 1714557600125%float
                     1714557600127%float 1714557600129%float page_7).1)
              [Fulfilled resp_created]))
  = 0.
Proof.
  eapply (capture_offline_then_drain fetch_script [Fulfilled resp_created] []
            resp_created no_round show_7 "Well" 39.125%float (-104.875)%float
            "2024-05-01T10:00:00.000Z" 1714557600123%float 1714557600125%float
            1714557600127%float 1714557600129%float page_7 []);
    reflexivity || discriminate.
Defined.

(** The same on the page whose project never loaded: the one capture
    leaves two pending records and the run makes two requests. *)
Example capture_unloaded_then_drain :
  let p' := (saveGPSPoint no_round show_7 "Well" 39.125%float (-104.875)%float
               "2024-05-01T10:00:00.000Z" false Rejected
               1714557600123%float 1714557600125%float
               1714557600127%float 1714557600129%float page_7_unloaded).1 in
  getUnsyncedCount (db p') = 2 /\
  length (ds_net (syncPendingData (recording (fun _ _ => Fulfilled resp_created))
                    true (db p') [])) = 2.
Proof. vm_compute. split; reflexivity. Qed.

End VisitMore.

(** ** The fetch handler: the remaining rows of the policy *)

Module SWMore.
Import SW SWFacts Samples.

Lemma caches_lookup_update_same name f (cs : CacheStorage) :
  caches_lookup name (caches_update name f cs) = f <$> caches_lookup name cs.
Proof.
  induction cs as [|[n c] cs IH]; simpl; [reflexivity|].
  destruct (String.eqb n name) eqn:E; simpl; rewrite E; [reflexivity | exact IH].
Qed.

Lemma caches_lookup_update_other n name f (cs : CacheStorage) :
  n <> name ->
  caches_lookup n (caches_update name f cs) = caches_lookup n cs.
Proof.
  intros Hne. induction cs as [|[m c] cs IH]; simpl; [reflexivity|].
  destruct (String.eqb m name) eqn:E; simpl.
  - apply String.eqb_eq in E. subst m.
    destruct (String.eqb name n) eqn:E'; [|reflexivity].
    apply String.eqb_eq in E'. congruence.
  - destruct (String.eqb m n); [reflexivity | exact IH].
Qed.

Lemma caches_lookup_open_same name (cs : CacheStorage) :
  caches_lookup name (caches_open name cs) = Some (cache_content name cs).
Proof.
  unfold caches_open, cache_content.
  destruct (caches_lookup name cs) eqn:E; simpl; [exact E|].
  rewrite caches_lookup_app, E. simpl. rewrite String.eqb_refl. reflexivity.
Qed.

(** Storing a storable response of a GET adds that entry to the named
    cache and to no other. *)
Lemma cache_content_put_get name req resp (cs : CacheStorage) :
  method req = "GET" ->
  storable resp = true ->
  cache_content name (caches_put name req resp cs)
    = <[href (url req) := resp]> (cache_content name cs).
Proof.
  intros Hm Hst. unfold caches_put. rewrite Hm, Hst. simpl.
  unfold cache_content at 1.
  rewrite caches_lookup_update_same, caches_lookup_open_same. reflexivity.
Qed.

(** A response that [cache.put] refuses changes no entry of any cache. *)
Lemma cache_content_put_refused n name req resp (cs : CacheStorage) :
  storable resp = false ->
  cache_content n (caches_put name req resp cs) = cache_content n cs.
Proof.
  intros Hst. unfold caches_put. rewrite Hst, andb_false_r.
  apply cache_content_open.
Qed.

Lemma cache_content_put_other n name req resp (cs : CacheStorage) :
  n <> name ->
  cache_content n (caches_put name req resp cs) = cache_content n cs.
Proof.
  intros Hne. unfold caches_put.
  destruct (String.eqb (method req) "GET" && storable resp).
  - unfold cache_content at 1. rewrite caches_lookup_update_other by assumption.
    apply cache_content_open.
  - apply cache_content_open.
Qed.

(** X6: the promise the handler gives to [respondWith] rejects in one
    situation only: a request that is neither for a tile host nor for an
    [/api/] path, that no cache holds, whose fetch fails, that accepts
    [text/html], while the page ['/'] is in no cache either.  In every
    other situation the page gets a response. *)
Theorem on_fetch_rejects_only_uncached_navigation
    (net : Request -> Settled Response) (root : Request)
    (cs : CacheStorage) (req : Request) :
  respond (on_fetch net root cs req) = Rejected <->
  is_tile_host (hostname (url req)) = false /\
  startsWith (pathname (url req)) "/api/" = false /\
  caches_match cs req = None /\
  net req = Rejected /\
  (exists a, accept req = Some a /\ includes a "text/html" = true) /\
  caches_match cs root = None.
Proof.
  unfold on_fetch.
  destruct (is_tile_host (hostname (url req))).
  { split; [|intros (? & _); discriminate].
    destruct (cache_match _ req); [discriminate|].
    destruct (net req); discriminate. }
  destruct (startsWith (pathname (url req)) "/api/").
  { split; [|intros (_ & ? & _); discriminate].
    destruct (net req) as [r|].
    - destruct (String.eqb (method req) "GET" && ok r); discriminate.
    - destruct (caches_match cs req); discriminate. }
  destruct (caches_match cs req) as [c|].
  { split; [discriminate | intros (_ & _ & ? & _); discriminate]. }
  destruct (net req) as [r|].
  { split; [|intros (_ & _ & _ & ? & _); discriminate].
    destruct (ok r && String.eqb (method req) "GET"); discriminate. }
  destruct (accept req) as [a|]; simpl.
  - destruct (includes a "text/html") eqn:Ha.
    + destruct (caches_match cs root) as [page|]; simpl.
      * split; [discriminate | intros (_ & _ & _ & _ & _ & ?); discriminate].
      * split; [|reflexivity]. intros _. repeat split; eauto.
    + split; [discriminate|].
      intros (_ & _ & _ & _ & (a' & [= <-] & Ha') & _). congruence.
  - split; [discriminate|].
    intros (_ & _ & _ & _ & (a' & Ha' & _) & _). discriminate.
Qed.

(** X7: a tile fetched over the network is given to the page as the
    network sent it.  If [cache.put] accepts the response (any status but
    206, error responses too, and no [Vary: *]) it is stored, and from then
    on the handler answers the same request from the tile cache without
    going to the network.  If [cache.put] refuses it, nothing is stored
    and the next request for the tile goes to the network again. *)
Theorem tile_fetched_once_then_cached
    (net net2 : Request -> Settled Response) (root : Request)
    (cs : CacheStorage) (req : Request) (networkResponse : Response) :
  is_tile_host (hostname (url req)) = true ->
  method req = "GET" ->
  cache_match (cache_content TILE_CACHE cs) req = None ->
  net req = Fulfilled networkResponse ->
  let first := on_fetch net root cs req in
  let second := on_fetch net2 root (h_caches first) req in
  respond first = Fulfilled networkResponse /\
  h_net first = [req] /\
  (storable networkResponse = true ->
     respond second = Fulfilled networkResponse /\ h_net second = []) /\
  (storable networkResponse = false ->
     (forall name, cache_content name (h_caches first) = cache_content name cs) /\
     h_net second = [req]).
Proof.
  intros Htile Hm Hmiss Hnet first second. subst second first.
  assert (Hf : on_fetch net root cs req
               = mkHandled (Fulfilled networkResponse)
                   (caches_put TILE_CACHE req networkResponse
                      (caches_open TILE_CACHE cs)) [req]).
  { unfold on_fetch. rewrite Htile, cache_content_open, Hmiss, Hnet.
    reflexivity. }
  rewrite Hf. cbn [respond h_net h_caches].
  split; [reflexivity|]. split; [reflexivity|]. split.
  - intros Hst.
    assert (Hc : cache_match
                   (cache_content TILE_CACHE
                      (caches_open TILE_CACHE
                         (caches_put TILE_CACHE req networkResponse
                            (caches_open TILE_CACHE cs)))) req
                 = Some networkResponse).
    { rewrite cache_content_open, cache_content_put_get by assumption.
      unfold cache_match. rewrite Hm. simpl. apply lookup_insert_eq. }
    unfold on_fetch. rewrite Htile, Hc. simpl. auto.
  - intros Hst.
    assert (Hall : forall name,
              cache_content name
                (caches_put TILE_CACHE req networkResponse
                   (caches_open TILE_CACHE cs))
              = cache_content name cs).
    { intros name. rewrite cache_content_put_refused by assumption.
      apply cache_content_open. }
    split; [exact Hall|].
    unfold on_fetch. rewrite Htile, cache_content_open, Hall, Hmiss.
    destruct (net2 req); reflexivity.
Qed.

Lemma tile_fetched_once_then_cached_witness :
  respond (on_fetch net_down req_root
             (h_caches (on_fetch (fun _ => Fulfilled resp_error) req_root []
                          req_tile))
             req_tile)
  = Fulfilled resp_error.
Proof.
  destruct (tile_fetched_once_then_cached (fun _ => Fulfilled resp_error)
              net_down req_root [] req_tile resp_error)
    as (_ & _ & H & _);
    [reflexivity | reflexivity | reflexivity | reflexivity |].
  apply H. reflexivity.
Defined.

(** A partial response is handed to the page and not kept: the second
    request finds the network down and gets the placeholder. *)
Example tile_partial_not_cached :
  let first := on_fetch (fun _ => Fulfilled resp_partial) req_root [] req_tile in
  respond first = Fulfilled resp_partial /\
  respond (on_fetch net_down req_root (h_caches first) req_tile)
    = Fulfilled tile_placeholder.
Proof. vm_compute. split; reflexivity. Qed.

(** [caches.match] finds the entry of the one cache that holds the URL. *)
Lemma caches_match_found name (cs : CacheStorage) req r :
  method req = "GET" ->
  Forall (fun nc => nc.1 <> name -> nc.2 !! href (url req) = None) cs ->
  cache_content name cs !! href (url req) = Some r ->
  caches_match cs req = Some r.
Proof.
  intros Hm Hall. unfold cache_content.
  induction Hall as [|[n c] cs Hn _ IH]; simpl; intros Hr; [discriminate|].
  unfold cache_match at 1. rewrite Hm. simpl.
  destruct (String.eqb n name) eqn:E; simpl in *.
  - rewrite Hr. reflexivity.
  - apply String.eqb_neq in E. rewrite (Hn E). apply IH. exact Hr.
Qed.

Lemma caches_put_keeps_others name h req resp (cs : CacheStorage) :
  Forall (fun nc => nc.1 <> name -> nc.2 !! h = None) cs ->
  Forall (fun nc : string * Cache => nc.1 <> name -> nc.2 !! h = None)
         (caches_put name req resp cs).
Proof.
  intros Hall.
  assert (Hopen : Forall (fun nc : string * Cache =>
                            nc.1 <> name -> nc.2 !! h = None)
                         (caches_open name cs)).
  { unfold caches_open. destruct (caches_lookup name cs); [exact Hall|].
    apply Forall_app. split; [exact Hall|].
    apply Forall_cons. split; [simpl; congruence | constructor]. }
  unfold caches_put.
  destruct (String.eqb (method req) "GET" && storable resp); [|exact Hopen].
  induction Hopen as [|[n c] l Hn Hl IH]; simpl; [constructor|].
  destruct (String.eqb n name) eqn:E.
  - constructor; [|exact Hl]. simpl. apply String.eqb_eq in E. congruence.
  - constructor; [exact Hn | exact IH].
Qed.

Lemma caches_match_none_all (cs : CacheStorage) req :
  method req = "GET" ->
  caches_match cs req = None ->
  Forall (fun nc : string * Cache => nc.2 !! href (url req) = None) cs.
Proof.
  intros Hm. induction cs as [|[n c] cs IH]; simpl; [constructor|].
  unfold cache_match at 1. rewrite Hm. simpl.
  destruct (c !! href (url req)) eqn:E; [discriminate|].
  intros H. constructor; [exact E | apply IH; exact H].
Qed.

(** X8: an API read that the network answers with an ok response is given
    to the page as the network sent it, whatever the caches hold; if
    [cache.put] accepts the response (its status is not 206 and it does
    not vary on [*]) it is stored in the data cache (replacing an older
    copy), and when the same read later fails at the network the handler
    answers with that stored response, provided no other cache holds the
    URL.  An ok response that [cache.put] refuses is stored nowhere. *)
Theorem api_read_network_first_then_cache
    (net net2 : Request -> Settled Response) (root : Request)
    (cs : CacheStorage) (req : Request) (response : Response) :
  is_tile_host (hostname (url req)) = false ->
  startsWith (pathname (url req)) "/api/" = true ->
  method req = "GET" ->
  net req = Fulfilled response ->
  ok response = true ->
  net2 req = Rejected ->
  Forall (fun nc => nc.1 <> DATA_CACHE -> nc.2 !! href (url req) = None) cs ->
  let first := on_fetch net root cs req in
  let second := on_fetch net2 root (h_caches first) req in
  respond first = Fulfilled response /\
  h_net first = [req] /\
  (storable response = true ->
     cache_content DATA_CACHE (h_caches first) !! href (url req) = Some response /\
     respond second = Fulfilled response) /\
  (storable response = false ->
     forall name, cache_content name (h_caches first) = cache_content name cs).
Proof.
  intros Htile Hapi Hm Hnet Hok Hnet2 Hall first second. subst second first.
  assert (Hf : on_fetch net root cs req
               = mkHandled (Fulfilled response)
                   (caches_put DATA_CACHE req response cs) [req]).
  { unfold on_fetch. rewrite Htile, Hapi, Hnet, Hm, Hok. reflexivity. }
  rewrite Hf. cbn [respond h_net h_caches].
  split; [reflexivity|]. split; [reflexivity|]. split.
  - intros Hst.
    assert (Hc : cache_content DATA_CACHE (caches_put DATA_CACHE req response cs)
                   !! href (url req) = Some response).
    { rewrite cache_content_put_get by assumption. apply lookup_insert_eq. }
    split; [exact Hc|].
    unfold on_fetch. rewrite Htile, Hapi, Hnet2.
    rewrite (caches_match_found DATA_CACHE _ req response Hm);
      [reflexivity| |exact Hc].
    apply caches_put_keeps_others. exact Hall.
  - intros Hst name. apply cache_content_put_refused. exact Hst.
Qed.

Lemma api_read_network_first_then_cache_witness :
  respond (on_fetch net_down req_root
             (h_caches (on_fetch (fun _ => Fulfilled resp_created) req_root []
                          req_get_project))
             req_get_project)
  = Fulfilled resp_created.
Proof.
  destruct (api_read_network_first_then_cache (fun _ => Fulfilled resp_created)
              net_down req_root [] req_get_project resp_created)
    as (_ & _ & H & _);
    [reflexivity | reflexivity | reflexivity | reflexivity | reflexivity
    | reflexivity | constructor |].
  apply H. reflexivity.
Defined.

(** X9: for a request that is neither for a tile host nor for an [/api/]
    path: a cached response is returned as it is, with no request to the
    network and no change to any cache (nothing refreshes it); an uncached
    GET answered ok by the network is returned, and if [cache.put] accepts
    the response (not status 206, no [Vary: *]) it is stored in the app
    cache, so that the next such request is answered without the network,
    while a refused one leaves the caches as they were; an uncached
    request that fails at the network and does not accept [text/html] gets
    the 503 response. *)
Theorem static_request_cache_first
    (net net2 : Request -> Settled Response) (root : Request)
    (cs : CacheStorage) (req : Request) :
  is_tile_host (hostname (url req)) = false ->
  startsWith (pathname (url req)) "/api/" = false ->
  (forall cached, caches_match cs req = Some cached ->
     on_fetch net root cs req = mkHandled (Fulfilled cached) cs []) /\
  (forall response,
     caches_match cs req = None -> method req = "GET" ->
     net req = Fulfilled response -> ok response = true ->
     respond (on_fetch net root cs req) = Fulfilled response /\
     (storable response = true ->
        on_fetch net2 root (h_caches (on_fetch net root cs req)) req
          = mkHandled (Fulfilled response)
              (h_caches (on_fetch net root cs req)) []) /\
     (storable response = false ->
        forall name,
          cache_content name (h_caches (on_fetch net root cs req))
            = cache_content name cs)) /\
  (caches_match cs req = None -> net req = Rejected ->
     default false ((fun a => includes a "text/html") <$> accept req) = false ->
     respond (on_fetch net root cs req) = Fulfilled offline_503 /\
     status offline_503 = 503%Z).
Proof.
  intros Htile Hapi. split; [|split].
  - intros cached Hc. unfold on_fetch. rewrite Htile, Hapi, Hc. reflexivity.
  - intros response Hmiss Hm Hnet Hok.
    assert (Hf : on_fetch net root cs req
                 = mkHandled (Fulfilled response)
                     (caches_put CACHE_NAME req response cs) [req]).
    { unfold on_fetch. rewrite Htile, Hapi, Hmiss, Hnet, Hok, Hm. reflexivity. }
    rewrite Hf. cbn [respond h_caches]. split; [reflexivity|]. split.
    + intros Hst. unfold on_fetch. rewrite Htile, Hapi.
      rewrite (caches_match_found CACHE_NAME _ req response Hm); [reflexivity| |].
      * apply caches_put_keeps_others.
        eapply Forall_impl; [apply caches_match_none_all; eassumption|].
        simpl. auto.
      * rewrite cache_content_put_get by assumption. apply lookup_insert_eq.
    + intros Hst name. apply cache_content_put_refused. exact Hst.
  - intros Hmiss Hnet Hacc. unfold on_fetch.
    rewrite Htile, Hapi, Hmiss, Hnet, Hacc. split; reflexivity.
Qed.

Lemma static_request_cache_first_witness :
  respond (on_fetch net_down req_root []
             (mkRequest (mkURL "https://field.example/static/css/style.css"
                               "field.example" "/static/css/style.css")
                        "GET" (Some "text/css")))
  = Fulfilled offline_503.
Proof.
  eapply (static_request_cache_first net_down net_down req_root []
            (mkRequest (mkURL "https://field.example/static/css/style.css"
                              "field.example" "/static/css/style.css")
                       "GET" (Some "text/css"))); reflexivity.
Defined.

End SWMore.

(** ** Activation and the tile prefetch *)

Module WorkerFacts.
Import SW SWFacts SWMore TileFacts Worker Samples.

Lemma caches_lookup_delete name key (cs : CacheStorage) :
  caches_lookup name (caches_delete key cs)
    = if decide (name = key) then None else caches_lookup name cs.
Proof.
  unfold caches_delete, CacheStorage in *. induction cs as [|[n c] cs IH].
  - simpl. destruct (decide (name = key)); reflexivity.
  - rewrite filter_cons. cbn [fst].
    destruct (decide (n <> key)) as [Hn|Hn]; cbn [caches_lookup].
    + destruct (String.eqb n name) eqn:E; [|exact IH].
      apply String.eqb_eq in E. subst n.
      destruct (decide (name = key)); [contradiction | reflexivity].
    + rewrite IH. destruct (decide (name = key)) as [_|Hne]; [reflexivity|].
      destruct (String.eqb n name) eqn:E; [|reflexivity].
      apply String.eqb_eq in E. subst n. exfalso. apply Hn. exact Hne.
Qed.

Lemma caches_lookup_foldr_delete name (dels : list string) (cs : CacheStorage) :
  caches_lookup name (foldr caches_delete cs dels)
    = if decide (name ∈ dels) then None else caches_lookup name cs.
Proof.
  induction dels as [|key dels IH]; simpl.
  - destruct (decide (name ∈ [])) as [Hin|_]; [inversion Hin | reflexivity].
  - rewrite caches_lookup_delete, IH.
    destruct (decide (name = key)) as [->|Hne].
    + destruct (decide (key ∈ key :: dels)) as [_|Hn]; [reflexivity|].
      exfalso. apply Hn. left.
    + destruct (decide (name ∈ dels)) as [Hin|Hnin];
        destruct (decide (name ∈ key :: dels)) as [Hin'|Hnin']; try reflexivity.
      * exfalso. apply Hnin'. right. exact Hin.
      * exfalso. apply elem_of_cons in Hin' as [?|?]; contradiction.
Qed.

Lemma caches_lookup_absent name (cs : CacheStorage) :
  name ∉ caches_keys cs -> caches_lookup name cs = None.
Proof.
  unfold caches_keys. induction cs as [|[n c] cs IH]; simpl; [reflexivity|].
  intros Hn. apply not_elem_of_cons in Hn as [Hne Hn].
  destruct (String.eqb n name) eqn:E; [|apply IH; exact Hn].
  apply String.eqb_eq in E. congruence.
Qed.

(** X11: activation keeps the three current caches, each with the
    entries it had, and leaves no cache under any other name. *)
Theorem on_activate_purges_other_caches (cs : CacheStorage) (name : string) :
  caches_lookup name (on_activate cs)
    = if decide (name = CACHE_NAME \/ name = TILE_CACHE \/ name = DATA_CACHE)
      then caches_lookup name cs
      else None.
Proof.
  unfold on_activate. rewrite caches_lookup_foldr_delete.
  destruct (decide (name = CACHE_NAME \/ name = TILE_CACHE \/ name = DATA_CACHE))
    as [Hcur|Hold].
  - destruct (decide (name ∈ _)) as [Hin|_]; [|reflexivity].
    apply list_elem_of_filter in Hin as [(H1 & H2 & H3) _]. tauto.
  - destruct (decide (name ∈ _)) as [_|Hnin]; [reflexivity|].
    apply caches_lookup_absent. intros Hk. apply Hnin.
    apply list_elem_of_filter. split; [|exact Hk]. tauto.
Qed.

Lemma cache_content_put_url_same name u resp (cs : CacheStorage) :
  storable resp = true ->
  cache_content name (caches_put_url name u resp cs)
    = <[u := resp]> (cache_content name cs).
Proof.
  intros Hst. unfold caches_put_url. rewrite Hst. unfold cache_content at 1.
  rewrite caches_lookup_update_same, caches_lookup_open_same. reflexivity.
Qed.

Lemma cache_content_put_url_other n name u resp (cs : CacheStorage) :
  n <> name ->
  cache_content n (caches_put_url name u resp cs) = cache_content n cs.
Proof.
  intros Hne. unfold caches_put_url. destruct (storable resp).
  - unfold cache_content at 1.
    rewrite caches_lookup_update_other by assumption. apply cache_content_open.
  - apply cache_content_open.
Qed.

Lemma cache_content_put_url_refused n name u resp (cs : CacheStorage) :
  storable resp = false ->
  cache_content n (caches_put_url name u resp cs) = cache_content n cs.
Proof.
  intros Hst. unfold caches_put_url. rewrite Hst. apply cache_content_open.
Qed.

Section PrefetchFacts.
Variable net : string -> Settled Response.

Lemma cache_tile_ok url r st :
  net url = Fulfilled r -> ok r = true -> storable r = true ->
  cache_tile net url st
    = mkPrefetching (S (pf_cached st))
        (caches_put_url TILE_CACHE url r (pf_caches st)) (pf_fetched st ++ [url]).
Proof.
  intros Hn Hok Hst. unfold cache_tile. rewrite Hn, Hok, Hst. reflexivity.
Qed.

(** A URL whose fetch fails, or is answered not ok, or with a response
    that [cache.put] refuses, is not counted and changes no entry. *)
Lemma cache_tile_fail url st :
  fetched_and_stored net url = false ->
  pf_cached (cache_tile net url st) = pf_cached st /\
  pf_fetched (cache_tile net url st) = pf_fetched st ++ [url] /\
  forall n, cache_content n (pf_caches (cache_tile net url st))
            = cache_content n (pf_caches st).
Proof.
  unfold fetched_and_stored, cache_tile. destruct (net url) as [r|]; [|auto].
  destruct (ok r); [|auto]. simpl. intros Hst. rewrite Hst. cbn.
  split; [reflexivity|]. split; [reflexivity|].
  intros n. apply cache_content_put_url_refused. exact Hst.
Qed.

Lemma fetched_and_stored_cases url :
  (exists r, net url = Fulfilled r /\ ok r = true /\ storable r = true /\
             fetched_and_stored net url = true)
  \/ fetched_and_stored net url = false.
Proof.
  unfold fetched_and_stored. destruct (net url) as [r|]; [|right; reflexivity].
  destruct (ok r) eqn:E; [|right; reflexivity].
  destruct (storable r) eqn:E'; [left; eauto | right; reflexivity].
Qed.

(** The counter, the log and the other caches after any list of URLs. *)
Lemma cache_tiles_counts urls : forall st,
  pf_cached (cache_tiles net urls st)
    = pf_cached st
      + length (filter (fun u => fetched_and_stored net u = true) urls) /\
  pf_fetched (cache_tiles net urls st) = pf_fetched st ++ urls /\
  (forall n, n <> TILE_CACHE ->
     cache_content n (pf_caches (cache_tiles net urls st))
       = cache_content n (pf_caches st)).
Proof.
  induction urls as [|url rest IH]; intros st; cbn [cache_tiles].
  - rewrite filter_nil, app_nil_r. cbn. split; [lia|]. split; reflexivity.
  - destruct (IH (cache_tile net url st)) as (Hc & Hf & Ho).
    rewrite Hc, Hf, filter_cons.
    destruct (fetched_and_stored_cases url) as [(r & Hn & Hok & Hst & Hfo) | Hfo].
    + rewrite (cache_tile_ok url r st Hn Hok Hst) in *.
      cbn [pf_cached pf_fetched pf_caches] in *.
      rewrite Hfo. destruct (decide (true = true)); [|congruence].
      cbn [length]. split; [lia|]. split; [rewrite <- app_assoc; reflexivity|].
      intros n Hne. rewrite Ho by assumption.
      apply cache_content_put_url_other. exact Hne.
    + destruct (cache_tile_fail url st Hfo) as (H1 & H2 & H3).
      rewrite H1, H2, Hfo. destruct (decide (false = true)); [congruence|].
      split; [lia|]. split; [rewrite <- app_assoc; reflexivity|].
      intros m Hne. rewrite Ho by assumption. apply H3.
Qed.

(** A URL that is not fetched with an ok, storable response keeps its
    entry. *)
Lemma cache_tiles_keeps urls u : forall st,
  fetched_and_stored net u = false \/ u ∉ urls ->
  cache_content TILE_CACHE (pf_caches (cache_tiles net urls st)) !! u
    = cache_content TILE_CACHE (pf_caches st) !! u.
Proof.
  induction urls as [|url rest IH]; intros st Hu; cbn [cache_tiles]; [reflexivity|].
  rewrite IH.
  - destruct (fetched_and_stored_cases url) as [(r & Hn & Hok & Hst & Hfo) | Hfo].
    + rewrite (cache_tile_ok url r st Hn Hok Hst). cbn [pf_caches].
      rewrite cache_content_put_url_same by assumption. apply lookup_insert_ne.
      intros <-. destruct Hu as [Hu|Hu]; [congruence|]. apply Hu. left.
    + destruct (cache_tile_fail url st Hfo) as (_ & _ & H3). rewrite H3.
      reflexivity.
  - destruct Hu as [Hu|Hu]; [left; exact Hu|]. right.
    intros Hin. apply Hu. right. exact Hin.
Qed.

End PrefetchFacts.

(** X12: when [getTileUrls] returns, [cacheTilesForArea] fetches every
    URL of the list once, in order, whatever the earlier fetches did; the
    [total] it reports is the length of the list and the [count] the
    number of URLs fetched with an ok response that [cache.put] accepted
    (a response of status 206 is ok, but its [put] is refused and it is
    not counted), so [count <= total]; no cache but the tile cache
    changes, and in the tile cache only the entries of the counted URLs. *)
Theorem cacheTilesForArea_report
    (net : string -> Settled Response)
    (Math_log Math_tan Math_cos : float -> float)
    (Math_pow : float -> float -> float) (Number_toString : float -> string)
    (fuel : nat) (bounds : Bounds) (maxZoom : float) (cs : CacheStorage)
    (urls : list string) :
  getTileUrls Math_log Math_tan Math_cos Math_pow Number_toString
    fuel bounds maxZoom = Some urls ->
  exists r,
    cacheTilesForArea net Math_log Math_tan Math_cos Math_pow Number_toString
      fuel bounds maxZoom cs = Some r /\
    pf_fetched r.1 = urls /\
    tc_total r.2 = length urls /\
    tc_count r.2
      = length (filter (fun u => fetched_and_stored net u = true) urls) /\
    tc_count r.2 <= tc_total r.2 /\
    (forall n, n <> TILE_CACHE ->
       cache_content n (pf_caches r.1) = cache_content n cs) /\
    (forall u, fetched_and_stored net u = false \/ u ∉ urls ->
       cache_content TILE_CACHE (pf_caches r.1) !! u
         = cache_content TILE_CACHE cs !! u).
Proof.
  intros Hurls. unfold cacheTilesForArea. rewrite Hurls.
  eexists. split; [reflexivity|]. cbn [fst snd tc_count tc_total].
  destruct (cache_tiles_counts net urls
              (mkPrefetching 0 (caches_open TILE_CACHE cs) []))
    as (Hc & Hf & Ho).
  cbn [pf_cached pf_fetched pf_caches] in *.
  split; [exact Hf|]. split; [reflexivity|]. split; [exact Hc|]. split.
  - rewrite Hc. simpl. apply length_filter.
  - split.
    + intros n Hn. rewrite Ho by assumption. apply cache_content_open.
    + intros u Hu. rewrite cache_tiles_keeps by assumption.
      cbn [pf_caches]. rewrite cache_content_open. reflexivity.
Qed.

Lemma cacheTilesForArea_report_witness :
  exists r,
    cacheTilesForArea (fun _ => Fulfilled resp_partial)
      log_standin tan_standin cos_standin pow_standin show_index
      3 box_small 14%float [] = Some r /\
    tc_total r.2 = 4 /\ tc_count r.2 = 0.
Proof.
  destruct (cacheTilesForArea_report (fun _ => Fulfilled resp_partial)
              log_standin tan_standin cos_standin pow_standin show_index
              3 box_small 14%float []
              [tile_url show_index 14 6416 3413; tile_url show_index 14 6417 3413;
               tile_url show_index 14 6416 3414; tile_url show_index 14 6417 3414])
    as (r & H1 & _ & H3 & H4 & _).
  - vm_compute. reflexivity.
  - exists r. split; [exact H1|]. split; [exact H3|]. rewrite H4.
    vm_compute. reflexivity.
Defined.



End WorkerFacts.

(** ** The keyed stores, loading a project, notes and pins *)

Module StoreFacts.
Import Offline OfflineFacts Visit Stores Samples.

Section KeyedFacts.
Context {K : Type} `{Countable K}.
Variable to_key : jsval -> option K.

(** X15: a project saved with [saveProjectLocal] is what
    [getProjectLocal] returns for an id with the same key: the object as
    given, stamped [synced = false] and [lastModified = now]; the entries
    of other keys are as before. *)
Theorem project_save_then_get
    (project : jsobj) (now : float) (projects : gmap K jsobj)
    (projectId : jsval) (k : K) :
  project !! "id" ≫= to_key = Some k ->
  to_key projectId = Some k ->
  let r := saveProjectLocal to_key project now projects in
  exists projects',
    r.2 = Fulfilled projects' /\
    getProjectLocal to_key projectId projects' = Fulfilled (JObj r.1) /\
    r.1 !! "synced" = Some (JBool false) /\
    r.1 !! "lastModified" = Some (JNum now) /\
    (forall f, f <> "synced" -> f <> "lastModified" -> r.1 !! f = project !! f) /\
    (forall pid2 k2, to_key pid2 = Some k2 -> k2 <> k ->
       getProjectLocal to_key pid2 projects'
         = getProjectLocal to_key pid2 projects).
Proof.
  intros Hid Hk r. subst r. unfold saveProjectLocal. cbn [fst snd].
  assert (Hid2 : (<["lastModified" := JNum now]>
                    (<["synced" := JBool false]> project) : jsobj)
                   !! "id" ≫= to_key = Some k).
  { rewrite !lookup_insert_ne by discriminate. exact Hid. }
  rewrite Hid2. eexists. split; [reflexivity|]. split; [|split; [|split; [|split]]].
  - unfold getProjectLocal. rewrite Hk, lookup_insert_eq. reflexivity.
  - rewrite lookup_insert_ne by discriminate. apply lookup_insert_eq.
  - apply lookup_insert_eq.
  - intros f H1 H2. rewrite !lookup_insert_ne by congruence. reflexivity.
  - intros pid2 k2 Hk2 Hne. unfold getProjectLocal. rewrite Hk2.
    rewrite lookup_insert_ne by congruence. reflexivity.
Qed.

(** X16: a boundary saved for a parcel is what [getBoundaryLocal] returns
    for it, a later save replaces it, other parcels are untouched, and a
    parcel that was never saved gives [undefined]. *)
Theorem boundary_save_then_get
    (parcelId data data2 : jsval) (now now2 : float)
    (boundaries : gmap K jsobj) (k : K) :
  to_key parcelId = Some k ->
  exists b1 b2,
    saveBoundaryLocal to_key parcelId data now boundaries = Fulfilled b1 /\
    getBoundaryLocal to_key parcelId b1 = Fulfilled data /\
    saveBoundaryLocal to_key parcelId data2 now2 b1 = Fulfilled b2 /\
    getBoundaryLocal to_key parcelId b2 = Fulfilled data2 /\
    (forall p2 k2, to_key p2 = Some k2 -> k2 <> k ->
       getBoundaryLocal to_key p2 b1 = getBoundaryLocal to_key p2 boundaries) /\
    (boundaries !! k = None ->
       getBoundaryLocal to_key parcelId boundaries = Fulfilled JUndefined).
Proof.
  intros Hk. unfold saveBoundaryLocal, getBoundaryLocal. rewrite Hk.
  eexists _, _. split; [reflexivity|]. split; [|split; [reflexivity|split; [|split]]].
  - rewrite lookup_insert_eq. simplify_map_eq. reflexivity.
  - rewrite lookup_insert_eq. simplify_map_eq. reflexivity.
  - intros p2 k2 Hk2 Hne. rewrite Hk2, lookup_insert_ne by congruence.
    reflexivity.
  - intros ->. reflexivity.
Qed.

(** A store whose keys all came from the generator holds no key equal to
    a string, and a string key goes after all of them. *)
Lemma string_key_fresh (s : ObjectStore (IDBKey * jsobj)) (name : string) v :
  wf_points s ->
  existsb (fun r : IDBKey * jsobj =>
             match idb_compare (KOwn (JStr name)) r.1 with
             | Eq => true
             | _ => false
             end) (rows s) = false /\
  idb_insert (KOwn (JStr name)) v (rows s) = rows s ++ [(KOwn (JStr name), v)].
Proof.
  unfold wf_points. generalize (keygen s). intros g Hwf.
  induction Hwf as [|[k w] l (n & Hk & Hn) _ [IH1 IH2]];
    [split; reflexivity|].
  cbn [fst] in Hk. subst k. split.
  - cbn [existsb]. rewrite IH1. reflexivity.
  - cbn [idb_insert]. rewrite IH2. reflexivity.
Qed.

(** X17: in a [gps_points] store whose keys all came from the generator,
    [getGPSPointsLocal] for a project returns its points in the order they
    were saved, each stored copy carrying its key as [localId]; a point
    that has no [localId] is added at the end of its own project's list
    and of no other's, and saving the same point again adds a second
    record under the next key (nothing is deduplicated).  A point that
    carries a [localId] (here a string) is stored under that key, and
    saving it again is refused: the second request fails. *)
Theorem gps_points_by_project
    (projectId : jsval) (point : jsobj) (now now2 : float) (db : DB) (k : K)
    (name : string) :
  to_key projectId = Some k ->
  point !! "localId" = None ->
  wf_points (gps_points db) ->
  let key := keygen (gps_points db) in
  let r1 := saveGPSPointLocal projectId point now db in
  let keyed : jsobj := <["localId" := JStr name]> point in
  (exists old db1 db2,
     r1.2 = Fulfilled db1 /\
     (saveGPSPointLocal projectId point now2 db1).2 = Fulfilled db2 /\
     getGPSPointsLocal to_key projectId db = Fulfilled old /\
     getGPSPointsLocal to_key projectId db1
       = Fulfilled (old ++ [<["localId" := JNum (JSNumber.of_N key)]> r1.1]) /\
     getGPSPointsLocal to_key projectId db2
       = Fulfilled
           (old ++ [<["localId" := JNum (JSNumber.of_N key)]> r1.1;
                    <["localId" := JNum (JSNumber.of_N (key + 1))]>
                      (saveGPSPointLocal projectId point now2 db1).1]) /\
     (forall pid2 k2, to_key pid2 = Some k2 -> k2 <> k ->
        getGPSPointsLocal to_key pid2 db1 = getGPSPointsLocal to_key pid2 db) /\
     wf_points (gps_points db1)) /\
  (exists db1,
     (saveGPSPointLocal projectId keyed now db).2 = Fulfilled db1 /\
     rows (gps_points db1)
       = rows (gps_points db)
           ++ [(KOwn (JStr name), (saveGPSPointLocal projectId keyed now db).1)] /\
     keygen (gps_points db1) = key /\
     (saveGPSPointLocal projectId keyed now2 db1).2 = Rejected).
Proof.
  intros Hk Hno Hwf key r1 keyed. split.
  - set (data1 := (<["timestamp" := JNum now]>
                     (<["synced" := JBool false]>
                        (<["project_id" := projectId]> point)) : jsobj)).
    set (data2 := (<["timestamp" := JNum now2]>
                     (<["synced" := JBool false]>
                        (<["project_id" := projectId]> point)) : jsobj)).
    set (db1 := mkDB (mkStore (key + 1)%N
                        (rows (gps_points db)
                           ++ [(KGen key, <["localId" := JNum (JSNumber.of_N key)]> data1)]))
                     (sync_queue db)).
    set (db2 := mkDB (mkStore (key + 1 + 1)%N
                        (rows (gps_points db1)
                           ++ [(KGen (key + 1)%N,
                                <["localId" := JNum (JSNumber.of_N (key + 1))]> data2)]))
                     (sync_queue db)).
    assert (H1 : saveGPSPointLocal projectId point now db = (data1, Fulfilled db1)).
    { rewrite (saveGPSPointLocal_generated _ _ now db Hno).
      rewrite (idb_insert_generated _ _ Hwf). reflexivity. }
    assert (Hwf1 : wf_points (gps_points db1)).
    { unfold wf_points. cbn. apply Forall_app. split.
      - eapply Forall_impl; [exact Hwf|]. cbn. intros r (n & Hr & Hn).
        exists n. split; [exact Hr|]. fold key in Hn. lia.
      - repeat constructor. exists key. split; [reflexivity|]. lia. }
    assert (H2 : saveGPSPointLocal projectId point now2 db1 = (data2, Fulfilled db2)).
    { rewrite (saveGPSPointLocal_generated _ _ now2 db1 Hno).
      rewrite (idb_insert_generated _ _ Hwf1). reflexivity. }
    subst r1. rewrite H1. eexists _, db1, db2. rewrite H2. cbn [fst snd].
    split; [reflexivity|]. split; [reflexivity|].
    clear H1 H2. subst db2 db1 data1 data2.
    unfold getGPSPointsLocal. rewrite Hk.
    split; [reflexivity|].
    assert (Hpid : forall (t : float) (g : N),
              (<["localId" := JNum (JSNumber.of_N g)]>
                 (<["timestamp" := JNum t]>
                    (<["synced" := JBool false]>
                       (<["project_id" := projectId]> point))) : jsobj)
                !! "project_id" ≫= to_key = Some k).
    { intros t g. rewrite !lookup_insert_ne by discriminate.
      rewrite lookup_insert_eq. exact Hk. }
    split; [|split; [|split]].
    + cbn [gps_points rows]. rewrite fmap_app, filter_app. f_equal. f_equal.
      cbn [fmap list_fmap snd].
      rewrite (filter_singleton_True _ _ []); [reflexivity|]. apply Hpid.
    + cbn [gps_points rows]. rewrite !fmap_app, !filter_app.
      rewrite <- app_assoc. f_equal. f_equal.
      cbn [fmap list_fmap snd].
      rewrite !(filter_singleton_True _ _ []) by apply Hpid. reflexivity.
    + intros pid2 k2 Hk2 Hne. rewrite Hk2. f_equal.
      cbn [gps_points rows]. rewrite fmap_app, filter_app.
      cbn [fmap list_fmap snd].
      rewrite (filter_singleton_False _ _ []); [apply app_nil_r|].
      rewrite Hpid. congruence.
    + exact Hwf1.
  - set (data := (<["timestamp" := JNum now]>
                    (<["synced" := JBool false]>
                       (<["project_id" := projectId]> keyed)) : jsobj)).
    assert (Hid : forall t : float,
              (<["timestamp" := JNum t]>
                 (<["synced" := JBool false]>
                    (<["project_id" := projectId]> keyed)) : jsobj)
                !! "localId" = Some (JStr name)).
    { intros t. rewrite !lookup_insert_ne by discriminate.
      subst keyed. apply lookup_insert_eq. }
    destruct (string_key_fresh (gps_points db) name data Hwf) as [Hfresh Hins].
    assert (H1 : saveGPSPointLocal projectId keyed now db
                 = (data, Fulfilled
                            (mkDB (mkStore key
                                     (rows (gps_points db)
                                        ++ [(KOwn (JStr name), data)]))
                                  (sync_queue db)))).
    { unfold saveGPSPointLocal, add_by_key_path.
      rewrite (Hid now). cbn [valid_key bump_generator]. fold data.
      rewrite Hfresh, Hins. reflexivity. }
    rewrite H1. cbn [fst snd]. eexists. split; [reflexivity|].
    split; [reflexivity|]. split; [reflexivity|].
    unfold saveGPSPointLocal, add_by_key_path. rewrite (Hid now2).
    cbn [valid_key gps_points rows snd]. rewrite existsb_app.
    assert (Hself : idb_compare (KOwn (JStr name)) (KOwn (JStr name)) = Eq).
    { cbn. pose proof (String.compare_antisym name name) as Ha.
      destruct (String.compare name name); [reflexivity | discriminate..]. }
    cbn [existsb fst]. rewrite Hself, orb_true_r. reflexivity.
Qed.

(** X18: a project loaded online (ok response, JSON object whose [id] has
    the key of the page's [projectId]) becomes [projectData], stamped by
    the local save, and is what [loadProject] gives again when the page is
    next loaded offline or the server fails. *)
Theorem loadProject_online_then_offline
    (projectId : jsval) (o : jsobj) (now now2 : float) (st : Loader)
    (online2 : bool) (reply2 : ServerReply) (k : K) :
  o !! "id" ≫= to_key = Some k ->
  to_key projectId = Some k ->
  (online2 = false \/ reply2 = NetFail \/ reply2 = NotOk \/ reply2 = OkNoJson) ->
  let o' := <["lastModified" := JNum now]> (<["synced" := JBool false]> o) in
  let first := loadProject to_key projectId true (OkJson (JObj o)) now st in
  let second := loadProject to_key projectId online2 reply2 now2 first.1 in
  first.2 = true /\
  ld_projectData first.1 = JObj o' /\
  second.2 = true /\
  ld_projectData second.1 = JObj o'.
Proof.
  intros Hid Hk Hoff o' first second. subst second first.
  assert (Hf : loadProject to_key projectId true (OkJson (JObj o)) now st
               = (mkLoader (JObj o') (<[k := o']> (ld_projects st)), true)).
  { unfold loadProject, saveProjectLocal.
    rewrite !lookup_insert_ne by discriminate. rewrite Hid. reflexivity. }
  rewrite Hf. cbn [fst snd ld_projectData].
  split; [reflexivity|]. split; [reflexivity|].
  assert (Hc : load_from_cache to_key projectId
                 (mkLoader (JObj o') (<[k := o']> (ld_projects st)))
               = (mkLoader (JObj o') (<[k := o']> (ld_projects st)), true)).
  { unfold load_from_cache, getProjectLocal. cbn [ld_projects].
    rewrite Hk, lookup_insert_eq. reflexivity. }
  unfold loadProject.
  destruct online2; [|rewrite Hc; split; reflexivity].
  destruct Hoff as [Hoff | [ -> | [ -> | -> ] ] ]; [discriminate|..];
    rewrite Hc; split; reflexivity.
Qed.

(** X19: when the server's answer cannot be saved locally (the JSON
    object has no [id] that is a valid key), [loadProject] does not keep
    it: [projectData] becomes whatever the local store holds for the
    page's [projectId], [undefined] if nothing. *)
Theorem loadProject_discards_unsavable_answer
    (projectId : jsval) (o : jsobj) (now : float) (st : Loader) (k : K) :
  o !! "id" ≫= to_key = None ->
  to_key projectId = Some k ->
  let r := loadProject to_key projectId true (OkJson (JObj o)) now st in
  r.2 = true /\
  ld_projects r.1 = ld_projects st /\
  ld_projectData r.1 = from_option JObj JUndefined (ld_projects st !! k).
Proof.
  intros Hid Hk r. subst r. unfold loadProject, saveProjectLocal.
  rewrite !lookup_insert_ne by discriminate. rewrite Hid.
  unfold load_from_cache, getProjectLocal. cbn [ld_projects].
  rewrite Hk. cbn. auto.
Qed.

Variable ToString : jsval -> string.

(** X20: [saveNotes] on a project whose [id] is a valid key always runs
    to its end with the notes set in [projectData].  Online with a settled
    PUT (whatever its status) nothing is stored or queued; offline, or when
    the PUT fails, the project is saved locally and one PUT is queued whose
    payload is [projectData] as it then is in memory, stamped
    [synced = false] by the local save. *)
Theorem saveNotes_sends_or_queues
    (concerns findings recommendations : string) (online : bool)
    (server : Settled Response) (nowP nowP' nowQ : float) (st : Notes) (k : K) :
  n_projectData st !! "id" ≫= to_key = Some k ->
  let notes : jsobj :=
    {[ "concerns" := JStr concerns; "findings" := JStr findings;
       "recommendations" := JStr recommendations ]} in
  let r := saveNotes to_key ToString concerns findings recommendations online
             server nowP nowP' nowQ st in
  r.2 = true /\
  n_projectData r.1 !! "notes" = Some (JObj notes) /\
  (forall resp, online = true -> server = Fulfilled resp ->
     n_db r.1 = n_db st /\ n_projects r.1 = n_projects st /\
     n_projectData r.1 = <["notes" := JObj notes]> (n_projectData st) /\
     exists call, n_sent r.1 = n_sent st ++ [call] /\
       fc_method call = "PUT" /\ fc_body call = JObj (n_projectData r.1)) /\
  (online = false \/ server = Rejected ->
     exists item,
       getPendingSyncs (n_db r.1) = getPendingSyncs (n_db st) ++ [item] /\
       sq_action item = "PUT" /\
       sq_endpoint item = project_endpoint ToString (n_projectId st) /\
       sq_data item = JObj (n_projectData r.1) /\
       n_projectData r.1 !! "synced" = Some (JBool false) /\
       n_projects r.1 !! k = Some (n_projectData r.1)).
Proof.
  intros Hid notes r. subst r. unfold saveNotes. fold notes.
  assert (Hfb : forall t sent0,
            notes_fallback to_key ToString t nowQ
              (mkNotes (n_projectId st) (<["notes" := JObj notes]> (n_projectData st))
                       (n_projects st) (n_db st) sent0)
            = (let pd' := <["lastModified" := JNum t]>
                            (<["synced" := JBool false]>
                               (<["notes" := JObj notes]> (n_projectData st))) in
               (mkNotes (n_projectId st) pd' (<[k := pd']> (n_projects st))
                  (addToSyncQueue "PUT" (project_endpoint ToString (n_projectId st))
                     (JObj pd') nowQ (n_db st)) sent0, true))).
  { intros t sent0. unfold notes_fallback, saveProjectLocal.
    cbn [n_projectData n_projects n_projectId n_db n_sent].
    rewrite !lookup_insert_ne by discriminate. rewrite Hid. reflexivity. }
  destruct online; [destruct server as [resp|]|].
  - cbn [fst snd n_projectData n_db n_projects n_sent].
    split; [reflexivity|]. split; [apply lookup_insert_eq|]. split.
    + intros resp' _ _. repeat split; try reflexivity.
      eexists. split; [reflexivity|]. split; reflexivity.
    + intros [Hf|Hf]; discriminate.
  - rewrite Hfb. cbn [fst snd n_projectData n_db n_projects n_sent].
    split; [reflexivity|]. split.
    { rewrite !lookup_insert_ne by discriminate. apply lookup_insert_eq. }
    split; [intros resp' _ Hr; discriminate|].
    intros _. eexists. split; [reflexivity|]. cbn.
    repeat split; try reflexivity.
    + rewrite lookup_insert_ne by discriminate. apply lookup_insert_eq.
    + apply lookup_insert_eq.
  - rewrite Hfb. cbn [fst snd n_projectData n_db n_projects n_sent].
    split; [reflexivity|]. split.
    { rewrite !lookup_insert_ne by discriminate. apply lookup_insert_eq. }
    split; [intros resp' Hr; discriminate|].
    intros _. eexists. split; [reflexivity|]. cbn.
    repeat split; try reflexivity.
    + rewrite lookup_insert_ne by discriminate. apply lookup_insert_eq.
    + apply lookup_insert_eq.
Qed.
End KeyedFacts.

Lemma project_save_then_get_witness :
  exists projects',
    (saveProjectLocal string_key project_42 1000%float ∅).2 = Fulfilled projects' /\
    getProjectLocal string_key (JStr "42") projects'
      = Fulfilled (JObj (saveProjectLocal string_key project_42 1000%float ∅).1).
Proof.
  destruct (project_save_then_get string_key project_42 1000%float ∅
              (JStr "42") "42") as (ps & H1 & H2 & _); [reflexivity..|].
  exists ps. split; assumption.
Defined.

Lemma boundary_save_then_get_witness :
  exists b1 b2,
    saveBoundaryLocal string_key (JStr "R-17") (JStr "geojson") 1000%float ∅
      = Fulfilled b1 /\
    getBoundaryLocal string_key (JStr "R-17") b1 = Fulfilled (JStr "geojson") /\
    saveBoundaryLocal string_key (JStr "R-17") JNull 2000%float b1 = Fulfilled b2 /\
    getBoundaryLocal string_key (JStr "R-17") b2 = Fulfilled JNull.
Proof.
  destruct (boundary_save_then_get string_key (JStr "R-17") (JStr "geojson")
              JNull 1000%float 2000%float ∅ "R-17")
    as (b1 & b2 & H1 & H2 & H3 & H4 & _); [reflexivity|].
  exists b1, b2. repeat split; assumption.
Defined.

Lemma gps_points_by_project_witness :
  exists old db1 db2,
    (saveGPSPointLocal (JStr "42") well_point 1000%float initOfflineDB).2
      = Fulfilled db1 /\
    (saveGPSPointLocal (JStr "42") well_point 2000%float db1).2
      = Fulfilled db2 /\
    getGPSPointsLocal string_key (JStr "42") initOfflineDB = Fulfilled old /\
    getGPSPointsLocal string_key (JStr "42") db2
    = Fulfilled
        (old ++ [<["localId" := JNum (JSNumber.of_N 1)]>
                   (saveGPSPointLocal (JStr "42") well_point 1000%float
                      initOfflineDB).1;
                 <["localId" := JNum (JSNumber.of_N (1 + 1))]>
                   (saveGPSPointLocal (JStr "42") well_point 2000%float db1).1]).
Proof.
  destruct (gps_points_by_project string_key (JStr "42") well_point
              1000%float 2000%float initOfflineDB "42" "p-1")
    as [(old & db1 & db2 & H1 & H2 & H3 & _ & H5 & _) _];
    [reflexivity | reflexivity | constructor |].
  exists old, db1, db2. repeat split; assumption.
Defined.

(** A point that brings a number as its key: it is stored under 5, the
    generator moves to 6, and a second save of it is refused. *)
Example keyed_point_saved_once :
  match (saveGPSPointLocal (JNum 7%float) keyed_point 1000%float
           initOfflineDB).2 with
  | Fulfilled db1 =>
      (rows (gps_points db1)).*1 = [KOwn (JNum 5%float)] /\
      keygen (gps_points db1) = 6%N /\
      (saveGPSPointLocal (JNum 7%float) keyed_point 2000%float db1).2 = Rejected
  | Rejected => False
  end.
Proof. vm_compute. repeat split; reflexivity. Qed.

Lemma loadProject_online_then_offline_witness :
  ld_projectData
    (loadProject string_key (JStr "42") false NetFail 2000%float
       (loadProject string_key (JStr "42") true (OkJson (JObj project_42))
          1000%float (mkLoader JNull ∅)).1).1
  = JObj (<["lastModified" := JNum 1000%float]>
            (<["synced" := JBool false]> project_42)).
Proof.
  eapply (loadProject_online_then_offline string_key (JStr "42") project_42
            1000%float 2000%float (mkLoader JNull ∅) false NetFail "42");
    [reflexivity | reflexivity | left; reflexivity].
Defined.

Lemma loadProject_discards_unsavable_answer_witness :
  ld_projectData
    (loadProject string_key (JStr "42") true
       (OkJson (JObj {[ "status" := JStr "draft" ]})) 1000%float
       (mkLoader JNull ∅)).1
  = JUndefined.
Proof.
  destruct (loadProject_discards_unsavable_answer string_key (JStr "42")
              {[ "status" := JStr "draft" ]} 1000%float (mkLoader JNull ∅) "42")
    as (_ & _ & H3); [reflexivity | reflexivity |].
  rewrite H3. reflexivity.
Defined.

Lemma saveNotes_sends_or_queues_witness :
  (saveNotes string_key show_7 "steep access" "two pits" "engineered system"
     false Rejected 1000%float 1001%float 1002%float
     (mkNotes (JStr "42") project_42 ∅ initOfflineDB [])).2 = true.
Proof.
  eapply (saveNotes_sends_or_queues string_key show_7 "steep access" "two pits"
            "engineered system" false Rejected 1000%float 1001%float 1002%float
            (mkNotes (JStr "42") project_42 ∅ initOfflineDB []) "42").
  reflexivity.
Defined.

(** X21: [savePinFromPopup] never saves locally and never queues: the
    database is as it was whatever the POST does; the pin is appended to
    [projectData.gps_points] only when the POST settles and [projectData]
    is loaded (when the POST fails, or [projectData] is [null], nothing is
    appended); and a later run of the reconciler asks the transport only
    for what was queued before, so nothing is ever sent again for that
    pin. *)
Theorem savePinFromPopup_never_queues
    (Math_round : float -> float) (ToString : jsval -> string)
    (labelValue : jsval) (lat lng : float) (altitude : jsval) (iso : string)
    (server : Settled Response) (p : Page) :
  let pin := make_pin Math_round labelValue lat lng altitude (currentGPS p) iso in
  let p' := savePinFromPopup Math_round ToString labelValue lat lng altitude
              iso server p in
  db p' = db p /\
  sent p' = sent p ++ [mkFetchCall (gps_endpoint ToString (projectId p)) "POST"
                         [("Content-Type", "application/json")] (JObj pin)] /\
  gps_points_mem p'
    = (if server is Rejected then gps_points_mem p
       else (fun l => l ++ [pin]) <$> gps_points_mem p) /\
  (forall answer,
     ds_net (syncPendingData (recording answer) true (db p') [])
       = sync_request <$> getPendingSyncs (db p)).
Proof.
  intros pin p'. subst p'. unfold savePinFromPopup, push_point. fold pin.
  assert (Hrec : forall answer,
            ds_net (syncPendingData (recording answer) true (db p) [])
            = sync_request <$> getPendingSyncs (db p)).
  { intros answer.
    pose proof (syncPendingData_attempts (recording answer) (db p) []) as Hat.
    apply (f_equal snd) in Hat. cbn [snd] in Hat. rewrite Hat.
    apply (attempts_recording answer _ []). }
  destruct server as [resp|]; cbn [gps_points_mem];
    destruct (gps_points_mem p) as [l|] eqn:Hmem;
    cbn [default db sent gps_points_mem fmap option_fmap option_map];
    rewrite ?Hmem; auto.
Qed.

(** A pin dropped on the page whose project never loaded: posted, not
    appended, nothing queued. *)
Example pin_on_unloaded_page :
  let p' := savePinFromPopup no_round show_7 (JStr "Well") 39.125%float
              (-104.875)%float JNull "2024-05-01T10:00:00.000Z"
              (Fulfilled resp_created) page_7_unloaded in
  gps_points_mem p' = None /\ length (sent p') = 1 /\
  getUnsyncedCount (db p') = 0.
Proof. vm_compute. repeat split; reflexivity. Qed.

End StoreFacts.

(** ** From installation on, the handler always answers *)

Module LifecycleFacts.
Import SW SWFacts SWMore Worker WorkerFacts Lifecycle Samples.

Section Held.
Variable root : Request.
Hypothesis root_get : method root = "GET".

Lemma held_cons n c (cs : CacheStorage) :
  held root ((n, c) :: cs) <-> is_Some (c !! href (url root)) \/ held root cs.
Proof.
  unfold held. simpl. unfold cache_match. rewrite root_get. simpl.
  destruct (c !! href (url root)) as [r|]; split; eauto.
  - intros [[x Hx]|Hh]; [discriminate | exact Hh].
Qed.

Lemma held_app (cs l : CacheStorage) :
  held root cs -> held root (cs ++ l).
Proof.
  induction cs as [|[n c] cs IH]; [intros [x Hx]; discriminate|].
  rewrite <- app_comm_cons, !held_cons. intros [Hc|Hh]; [left | right]; auto.
Qed.

Lemma held_open name (cs : CacheStorage) :
  held root cs -> held root (caches_open name cs).
Proof.
  unfold caches_open. destruct (caches_lookup name cs); [auto|]. apply held_app.
Qed.

Lemma held_update name u resp (cs : CacheStorage) :
  held root cs ->
  held root (caches_update name (fun c => <[u := resp]> c) cs).
Proof.
  induction cs as [|[n c] cs IH]; [intros [x Hx]; discriminate|].
  simpl. destruct (String.eqb n name).
  - rewrite !held_cons. intros [Hc|Hh]; [left | right; exact Hh].
    destruct (decide (u = href (url root))) as [->|Hne].
    + rewrite lookup_insert_eq. eauto.
    + rewrite lookup_insert_ne by assumption. exact Hc.
  - rewrite !held_cons. intros [Hc|Hh]; [left; exact Hc | right; auto].
Qed.

Lemma held_put name req resp (cs : CacheStorage) :
  held root cs -> held root (caches_put name req resp cs).
Proof.
  intros Hh. unfold caches_put.
  destruct (String.eqb (method req) "GET" && storable resp).
  - apply held_update, held_open, Hh.
  - apply held_open, Hh.
Qed.

Lemma held_put_url name u resp (cs : CacheStorage) :
  held root cs -> held root (caches_put_url name u resp cs).
Proof.
  intros Hh. unfold caches_put_url. destruct (storable resp).
  - apply held_update, held_open, Hh.
  - apply held_open, Hh.
Qed.

(** An entry in a named cache is an entry [caches.match] can find. *)
Lemma held_content name (cs : CacheStorage) :
  is_Some (cache_content name cs !! href (url root)) -> held root cs.
Proof.
  unfold cache_content. induction cs as [|[n c] cs IH]; simpl.
  - intros [x Hx]. discriminate.
  - rewrite held_cons. destruct (String.eqb n name); simpl; auto.
Qed.

(** Handling a fetch event never takes it out of the caches. *)
Lemma on_fetch_keeps_held net req (cs : CacheStorage) :
  held root cs -> held root (h_caches (on_fetch net root cs req)).
Proof.
  intros Hh. unfold on_fetch.
  repeat (case_match; cbn [h_caches]);
    auto using held_open, held_put.
Qed.

(** While it is in the caches the handler answers every request. *)
Lemma on_fetch_answers net req (cs : CacheStorage) :
  held root cs -> respond (on_fetch net root cs req) <> Rejected.
Proof.
  intros [page Hp]. unfold on_fetch. rewrite Hp.
  repeat (case_match; cbn [respond]); discriminate.
Qed.

Lemma on_fetches_answer events : forall (cs : CacheStorage),
  held root cs ->
  Forall (fun o => o <> Rejected) (on_fetches root events cs).1 /\
  held root (on_fetches root events cs).2.
Proof.
  induction events as [|[net req] rest IH]; intros cs Hh; simpl.
  - split; [constructor | exact Hh].
  - destruct (IH (h_caches (on_fetch net root cs req))) as [Ho Hc].
    { apply on_fetch_keeps_held. exact Hh. }
    destruct (on_fetches root rest (h_caches (on_fetch net root cs req)))
      as [outs cs'].
    simpl in *. split; [|exact Hc].
    constructor; [apply on_fetch_answers; exact Hh | exact Ho].
Qed.
End Held.

Section InstallFacts.
Variable net : string -> Settled Response.
Variable resolve : string -> string.

Lemma addAll_step_keeps name u f (acc : CacheStorage) :
  is_Some (cache_content name acc !! u) ->
  is_Some (cache_content name
             (match net (resolve f) with
              | Fulfilled r => caches_put_url name (resolve f) r acc
              | Rejected => acc
              end) !! u).
Proof.
  intros Hs. destruct (net (resolve f)) as [r|]; [|exact Hs].
  destruct (storable r) eqn:Hst.
  - rewrite cache_content_put_url_same by assumption.
    destruct (decide (resolve f = u)) as [->|Hne].
    + rewrite lookup_insert_eq. eauto.
    + rewrite lookup_insert_ne by assumption. exact Hs.
  - rewrite cache_content_put_url_refused by assumption. exact Hs.
Qed.

Lemma addAll_fold_keeps name u files : forall (acc : CacheStorage),
  is_Some (cache_content name acc !! u) ->
  is_Some (cache_content name
             (foldl (fun acc f =>
                       match net (resolve f) with
                       | Fulfilled r => caches_put_url name (resolve f) r acc
                       | Rejected => acc
                       end) acc files) !! u).
Proof.
  induction files as [|f files IH]; intros acc Hs; simpl; [exact Hs|].
  apply IH. apply addAll_step_keeps. exact Hs.
Qed.

(** When [addAll] fulfils, every file is in the cache. *)
Lemma addAll_stores name files : forall (cs cs' : CacheStorage) f,
  addAll net resolve name files cs = Fulfilled cs' ->
  f ∈ files ->
  is_Some (cache_content name cs' !! resolve f).
Proof.
  unfold addAll. induction files as [|g files IH]; intros cs cs' f Hall Hin.
  - inversion Hin.
  - simpl in Hall.
    destruct (fetched_and_stored net (resolve g)) eqn:Hg; [|discriminate].
    simpl in Hall.
    destruct (forallb (fun f => fetched_and_stored net (resolve f)) files)
      eqn:Hrest; [|discriminate].
    injection Hall as <-.
    apply elem_of_cons in Hin as [->|Hin].
    + apply addAll_fold_keeps. unfold fetched_and_stored in Hg.
      destruct (net (resolve g)) as [r|]; [|discriminate].
      apply andb_true_iff in Hg as [_ Hst].
      rewrite cache_content_put_url_same by assumption.
      rewrite lookup_insert_eq. eauto.
    + eapply IH; [|exact Hin]. reflexivity.
Qed.
End InstallFacts.

Lemma cache_content_activate_current (cs : CacheStorage) :
  cache_content CACHE_NAME (on_activate cs) = cache_content CACHE_NAME cs.
Proof.
  unfold cache_content, on_activate. rewrite caches_lookup_foldr_delete.
  destruct (decide (CACHE_NAME ∈ _)) as [Hin|_]; [|reflexivity].
  apply list_elem_of_filter in Hin as [(H1 & _) _]. congruence.
Qed.

(** X22: when installation succeeds every file of the app shell is in the
    app cache, activation keeps it there, and from then on no promise the
    fetch handler gives to [respondWith] ever rejects, whatever requests
    arrive and whatever the network does: a navigation that fails and is
    in no cache is answered with the cached page ['/']. *)
Theorem installed_worker_always_answers
    (net : string -> Settled Response) (resolve : string -> string)
    (cs cs1 : CacheStorage) (root : Request)
    (events : list ((Request -> Settled Response) * Request)) :
  on_install net resolve cs = Fulfilled cs1 ->
  method root = "GET" ->
  href (url root) = resolve "/" ->
  (forall f, f ∈ APP_FILES ->
     is_Some (cache_content CACHE_NAME (on_activate cs1) !! resolve f)) /\
  Forall (fun o => o <> Rejected)
         (on_fetches root events (on_activate cs1)).1.
Proof.
  intros Hinst Hget Hroot.
  assert (Hfiles : forall f, f ∈ APP_FILES ->
            is_Some (cache_content CACHE_NAME (on_activate cs1) !! resolve f)).
  { intros f Hf. rewrite cache_content_activate_current.
    eapply addAll_stores; [exact Hinst | exact Hf]. }
  split; [exact Hfiles|].
  apply on_fetches_answer; [exact Hget|].
  apply (held_content root Hget CACHE_NAME). rewrite Hroot.
  apply Hfiles. left.
Qed.

Lemma installed_worker_always_answers_witness :
  Forall (fun o => o <> Rejected)
         (on_fetches req_root [(net_down, req_visit); (net_down, req_post_gps)]
            (on_activate installed_example)).1.
Proof.
  apply (installed_worker_always_answers net_up resolve_example []
           installed_example req_root
           [(net_down, req_visit); (net_down, req_post_gps)]);
    reflexivity.
Defined.

(** What the page gets in that example: the cached page for the failed
    navigation, the offline marker for the failed POST. *)
Example installed_worker_sample :
  (on_fetches req_root [(net_down, req_visit); (net_down, req_post_gps)]
     (on_activate installed_example)).1
  = [Fulfilled (mkResponse 200 [] (BodyText "content")); Fulfilled offline_marker].
Proof. vm_compute. reflexivity. Qed.

End LifecycleFacts.

(** ** Two runs started together *)

Module OverlapMore.
Import Offline OfflineFacts Overlap OverlapFacts Samples.

Lemma submissions_tagged i k (p : list SyncItem) :
  submissions k ((fun e => (i, e)) <$> p)
    = length (filter (fun e => sq_id e = k) p).
Proof.
  unfold submissions. induction p as [|e p IH]; [reflexivity|].
  rewrite fmap_cons, !filter_cons. cbn [snd].
  destruct (decide (sq_id e = k)); simpl; rewrite IH; reflexivity.
Qed.

Lemma key_count_one (p : list SyncItem) item :
  NoDup (sq_id <$> p) -> item ∈ p ->
  length (filter (fun e => sq_id e = sq_id item) p) = 1.
Proof.
  intros Hnd Hin.
  pose proof (NoDup_key_count sq_id (sq_id item) p Hnd) as Hle.
  assert (Hm : item ∈ filter (fun e => sq_id e = sq_id item) p).
  { apply list_elem_of_filter. split; [reflexivity | exact Hin]. }
  destruct (filter (fun e => sq_id e = sq_id item) p) as [|x l];
    [inversion Hm|]. simpl in *. lia.
Qed.

(** X23: the two [online] listeners (and the [do-sync] message) start
    runs of [syncPendingData] together; whatever the queue holds and
    however the server answers each request, the schedule in which both
    runs read the queue before either sends is possible, and in it every
    pending record is submitted exactly twice and both runs finish. *)
Theorem two_drains_submit_everything_twice {Net0 Net1}
    (fetch0 : FetchCall -> Net0 -> Settled Response * Net0)
    (fetch1 : FetchCall -> Net1 -> Settled Response * Net1)
    (db : DB) (net0 : Net0) (net1 : Net1) :
  wf_queue (sync_queue db) ->
  exists sys s0 f0 s1 f1,
    rtc sys_step (launch 2 db) sys /\
    sys_tasks sys = [TDone s0 f0; TDone s1 f1] /\
    forall item, item ∈ getPendingSyncs db ->
      submissions (sq_id item) (sys_log sys) = 2.
Proof.
  intros Hwf. set (p := getPendingSyncs db).
  set (st0 := mkDrain 0 0 db net0 []).
  set (r0 := sync_items fetch0 p st0).
  set (st1 := mkDrain 0 0 (ds_db r0) net1 []).
  set (r1 := sync_items fetch1 p st1).
  exists (mkSys (ds_db r1)
            (((fun e => (0, e)) <$> p) ++ ((fun e => (1, e)) <$> p))
            [TDone (synced r0) (failed r0); TDone (synced r1) (failed r1)]).
  exists (synced r0), (failed r0), (synced r1), (failed r1).
  split; [|split; [reflexivity|]].
  - unfold launch. simpl.
    eapply rtc_l; [eapply (sys_step_task 0); [reflexivity | apply step_read]|].
    eapply rtc_l; [eapply (sys_step_task 1); [reflexivity | apply step_read]|].
    simpl. fold p.
    etransitivity.
    + exact (sync_items_is_a_run fetch0 0 p st0 [] [TStart; TLoop p 0 0]
               ltac:(simpl; lia)).
    + exact (sync_items_is_a_run fetch1 1 p st1 ((fun e => (0, e)) <$> p)
               [TDone (synced r0) (failed r0); TStart] ltac:(simpl; lia)).
  - intros item Hin. cbn [sys_log]. unfold submissions.
    rewrite filter_app, length_app. fold (submissions (sq_id item) ((fun e => (0, e)) <$> p)).
    fold (submissions (sq_id item) ((fun e => (1, e)) <$> p)).
    rewrite !submissions_tagged.
    rewrite (key_count_one p item (wf_queue_NoDup _ Hwf) Hin). reflexivity.
Qed.

Lemma two_drains_submit_everything_twice_witness :
  exists sys s0 f0 s1 f1,
    rtc sys_step (launch 2 db_three) sys /\
    sys_tasks sys = [TDone s0 f0; TDone s1 f1] /\
    submissions 2%N (sys_log sys) = 2.
Proof.
  destruct (two_drains_submit_everything_twice fetch_down fetch_down db_three
              tt tt QueueMore.wf_three)
    as (sys & s0 & f0 & s1 & f1 & H1 & H2 & H3).
  exists sys, s0, f0, s1, f1. split; [exact H1|]. split; [exact H2|].
  apply (H3 (mkSyncItem 2 "POST" "/api/projects/7/photo" (JObj ∅) 2000%float 0)).
  vm_compute. right. left.
Defined.

End OverlapMore.
